(** * Semantic search over normalized embeddings

    A shallow embedding of [Embedding01/04_semantic_search.py]:
    [load_data], [normalize_matrix] and [semantic_search], together with the
    numpy and pandas primitives they call.

    - numpy scalars are kept abstract behind the class [Scalar]; it has two
      instances: IEEE-754 binary32 ([np.float32], executable, from the
      Standard Library's [SpecFloat]) and the real numbers (exact arithmetic,
      rounding ignored).
    - [np.argsort] is kept abstract behind the class [Argsort]: with the
      default [kind] numpy promises an ascending order and nothing about ties.
      The stable insertion sort numpy runs on short arrays is one instance.
    - Python objects live in a heap of numpy arrays and data frames, and the
      functions run in a state-and-exception monad over that heap, so that
      in-place updates ([scores[mask] = -1.0]) and fresh allocations
      ([matrix / (norms + 1e-10)]) are told apart. *)

From Stdlib Require Import String List ZArith Lia Bool Permutation Sorted.
From Stdlib Require Import Reals Lra.
From Stdlib Require Import Floats.SpecFloat.
Import ListNotations.

Set Implicit Arguments.

(* ------------------------------------------------------------------ *)
(** ** Scalars *)

(** The arithmetic the script asks of numpy, and the order [np.argsort]
    sorts by (numeric [<=], a NaN after everything else). *)
Class Scalar (F : Type) : Type := {
  f_zero : F;
  f_add : F -> F -> F;
  f_mul : F -> F -> F;
  f_div : F -> F -> F;
  f_sqrt : F -> F;
  f_eps : F;                      (* the literal 1e-10 *)
  f_neg_one : F;                  (* the literal -1.0 *)
  f_leb : F -> F -> bool;
  f_leb_total : forall x y, f_leb x y = true \/ f_leb y x = true;
  f_leb_trans : forall x y z,
      f_leb x y = true -> f_leb y z = true -> f_leb x z = true
}.

Lemma f_leb_refl {F} `{Scalar F} (x : F) : f_leb x x = true.
Proof. destruct (f_leb_total x x); assumption. Qed.

(** *** binary32 *)

Module Binary32.

Definition prec : Z := 24.
Definition emax : Z := 128.

Definition t : Type := spec_float.

Definition add : t -> t -> t := SFadd prec emax.
Definition mul : t -> t -> t := SFmul prec emax.
Definition div : t -> t -> t := SFdiv prec emax.
Definition sqrt : t -> t := SFsqrt prec emax.

(** [of_Z m e] is the binary32 nearest to [m * 2^e]. *)
Definition of_Z (m e : Z) : t := binary_normalize prec emax m e false.

Definition zero : t := S754_zero false.
Definition one : t := of_Z 1 0.
Definition neg_one : t := of_Z (-1) 0.

(** [np.float32(1e-10)]: 1 / 10^10, both exact in binary32, rounded once. *)
Definition eps : t := div one (of_Z 10000000000 0).

Definition is_nan (x : t) : bool :=
  match x with S754_nan => true | _ => false end.

(** The order of [np.sort]: a NaN compares after every other value. *)
Definition sort_leb (x y : t) : bool :=
  is_nan y || SFleb x y.

(** A key whose lexicographic order is [sort_leb]. *)
Definition key (x : t) : Z * (Z * Z) :=
  match x with
  | S754_nan => (3, (0, 0))
  | S754_infinity false => (2, (0, 0))
  | S754_infinity true => (-2, (0, 0))
  | S754_zero _ => (0, (0, 0))
  | S754_finite false m e => (1, (e, Zpos m))
  | S754_finite true m e => (-1, (- e, Zneg m))
  end%Z.

Definition lex_leb (a b : Z * (Z * Z)) : bool :=
  let '(a1, (a2, a3)) := a in
  let '(b1, (b2, b3)) := b in
  ((a1 <? b1) || ((a1 =? b1) && ((a2 <? b2) || ((a2 =? b2) && (a3 <=? b3)))))%Z.

Ltac zbool :=
  repeat match goal with
    | |- context [(?a <? ?b)%Z] => destruct (Z.ltb_spec a b)
    | |- context [(?a =? ?b)%Z] => destruct (Z.eqb_spec a b)
    | |- context [(?a <=? ?b)%Z] => destruct (Z.leb_spec a b)
    end;
  simpl; try reflexivity; try discriminate; try lia.

Lemma sort_leb_key (x y : t) : sort_leb x y = lex_leb (key x) (key y).
Proof.
  unfold sort_leb, SFleb.
  destruct x as [sx|sx| |sx mx ex], y as [sy|sy| |sy my ey];
    try destruct sx; try destruct sy; try reflexivity;
    cbn [is_nan orb SFcompare key lex_leb];
    change (Pos.compare_cont Eq mx my) with (Pos.compare mx my);
    destruct (Z.compare_spec ex ey); destruct (Pos.compare_spec mx my);
    subst; cbn [CompOpp]; zbool.
Qed.

Lemma lex_leb_total a b : lex_leb a b = true \/ lex_leb b a = true.
Proof.
  destruct a as [a1 [a2 a3]], b as [b1 [b2 b3]]; unfold lex_leb.
  repeat (rewrite orb_true_iff || rewrite andb_true_iff).
  rewrite !Z.ltb_lt, !Z.eqb_eq, !Z.leb_le.
  lia.
Qed.

Lemma lex_leb_trans a b c :
  lex_leb a b = true -> lex_leb b c = true -> lex_leb a c = true.
Proof.
  destruct a as [a1 [a2 a3]], b as [b1 [b2 b3]], c as [c1 [c2 c3]];
    unfold lex_leb.
  repeat (rewrite orb_true_iff || rewrite andb_true_iff).
  rewrite !Z.ltb_lt, !Z.eqb_eq, !Z.leb_le.
  lia.
Qed.

Lemma sort_leb_total x y : sort_leb x y = true \/ sort_leb y x = true.
Proof. rewrite !sort_leb_key. apply lex_leb_total. Qed.

Lemma sort_leb_trans x y z :
  sort_leb x y = true -> sort_leb y z = true -> sort_leb x z = true.
Proof. rewrite !sort_leb_key. apply lex_leb_trans. Qed.

End Binary32.

#[export] Instance binary32_scalar : Scalar Binary32.t := {|
  f_zero := Binary32.zero;
  f_add := Binary32.add;
  f_mul := Binary32.mul;
  f_div := Binary32.div;
  f_sqrt := Binary32.sqrt;
  f_eps := Binary32.eps;
  f_neg_one := Binary32.neg_one;
  f_leb := Binary32.sort_leb;
  f_leb_total := Binary32.sort_leb_total;
  f_leb_trans := Binary32.sort_leb_trans
|}.

(** *** Reals *)

Module Exact.

Definition eps : R := (/ 10000000000)%R.

Definition leb (x y : R) : bool :=
  if Rle_dec x y then true else false.

Lemma leb_le x y : leb x y = true <-> (x <= y)%R.
Proof. unfold leb. destruct (Rle_dec x y); split; intros; try easy. Qed.

Lemma leb_total x y : leb x y = true \/ leb y x = true.
Proof. rewrite !leb_le. lra. Qed.

Lemma leb_trans x y z : leb x y = true -> leb y z = true -> leb x z = true.
Proof. rewrite !leb_le. lra. Qed.

End Exact.

#[export] Instance real_scalar : Scalar R := {|
  f_zero := 0%R;
  f_add := Rplus;
  f_mul := Rmult;
  f_div := Rdiv;
  f_sqrt := sqrt;
  f_eps := Exact.eps;
  f_neg_one := (-1)%R;
  f_leb := Exact.leb;
  f_leb_total := Exact.leb_total;
  f_leb_trans := Exact.leb_trans
|}.

(* ------------------------------------------------------------------ *)
(** ** numpy primitives on sequences *)

Section Numpy.
Context {F : Type} `{Scalar F}.

(** Sum of products, accumulated from 0 in index order. *)
Definition dot (x y : list F) : F :=
  fold_left (fun acc p => f_add acc (f_mul (fst p) (snd p)))
            (combine x y) f_zero.

(** [np.linalg.norm]: the square root of the sum of squares. *)
Definition l2_norm (x : list F) : F := f_sqrt (dot x x).

(** The guarded denominator [norm + 1e-10]. *)
Definition denominator (x : list F) : F := f_add (l2_norm x) f_eps.

Definition scale_row (x : list F) (d : F) : list F :=
  map (fun v => f_div v d) x.

Definition normalize_row (x : list F) : list F :=
  scale_row x (denominator x).

Definition key_at (s : list F) (i : nat) : F := nth i s f_zero.

(** [i] may stand before [j] in an ascending order of [s]. *)
Definition ascending (s : list F) (i j : nat) : Prop :=
  f_leb (key_at s i) (key_at s j) = true.

(** Python's [l[:k]], also for [k <= 0]. *)
Definition py_slice_to {A} (l : list A) (k : Z) : list A :=
  if (0 <=? k)%Z then firstn (Z.to_nat k) l
  else firstn (length l - Z.to_nat (- k)) l.

(** Insertion of index [i] behind every index whose key is not greater. *)
Fixpoint insert (s : list F) (i : nat) (l : list nat) : list nat :=
  match l with
  | [] => [i]
  | j :: l' =>
      if f_leb (key_at s j) (key_at s i) then j :: insert s i l'
      else i :: l
  end.

Definition insertion_argsort (s : list F) : list nat :=
  fold_left (fun acc i => insert s i acc) (seq 0 (length s)) [].

End Numpy.

(** [np.argsort(scores)] with the default [kind]: some permutation of the
    indices that puts the scores in ascending order. *)
Class Argsort (F : Type) `{Scalar F} : Type := {
  argsort : list F -> list nat;
  argsort_perm : forall s, Permutation (argsort s) (seq 0 (length s));
  argsort_sorted : forall s, StronglySorted (ascending s) (argsort s)
}.

Arguments Argsort F {_}.

(* ------------------------------------------------------------------ *)
(** ** Python objects, the heap and the monad *)

Section Objects.
Context {F : Type}.

(** A row of [reviews_with_embeddings.csv]; the [embedding] cell is kept
    as the list [json.loads] decodes it to. *)
Record review : Type := {
  Id : Z;
  ProductId : string;
  Score : Z;
  content : string;
  embedding : list F
}.

Record csv_table : Type := {
  csv_columns : list string;
  csv_rows : list review
}.

(** A row of the frame [semantic_search] returns:
    columns [Score], [similarity], [content]. *)
Record hit : Type := {
  hit_Score : Z;
  hit_similarity : F;
  hit_content : string
}.

Inductive pyobj : Type :=
| NdArray1 (data : list F)                        (* shape (N,) *)
| NdArray2 (ncols : nat) (rows : list (list F))   (* shape (N, ncols) *)
| DataFrame (rows : list review).

Definition loc : Type := nat.
Definition heap : Type := list pyobj.

Inductive pyexn : Type :=
| FileNotFoundError
| ValueError
| IndexError
| TypeError.

Definition exn_name (e : pyexn) : string :=
  match e with
  | FileNotFoundError => "FileNotFoundError"
  | ValueError => "ValueError"
  | IndexError => "IndexError"
  | TypeError => "TypeError"
  end.

Definition M (A : Type) : Type := heap -> (pyexn + A) * heap.

Definition ret {A} (a : A) : M A := fun h => (inr a, h).

Definition bind {A B} (m : M A) (k : A -> M B) : M B :=
  fun h =>
    match m h with
    | (inl e, h') => (inl e, h')
    | (inr a, h') => k a h'
    end.

Definition raise {A} (e : pyexn) : M A := fun h => (inl e, h).

Definition lift {A} (r : pyexn + A) : M A := fun h => (r, h).

(** A new object gets the next free location. *)
Definition alloc (o : pyobj) : M loc :=
  fun h => (inr (length h), h ++ [o]).

Definition load (l : loc) : M pyobj :=
  fun h =>
    match nth_error h l with
    | Some o => (inr o, h)
    | None => (inl TypeError, h)
    end.

Fixpoint update (h : heap) (l : loc) (o : pyobj) : heap :=
  match h, l with
  | [], _ => []
  | _ :: h', O => o :: h'
  | x :: h', S l' => x :: update h' l' o
  end.

(** In-place update of the object at [l]. *)
Definition store (l : loc) (o : pyobj) : M unit :=
  fun h => (inr tt, update h l o).

Definition load_vector (l : loc) : M (list F) :=
  bind (load l) (fun o =>
    match o with NdArray1 d => ret d | _ => raise TypeError end).

Definition load_matrix (l : loc) : M (nat * list (list F)) :=
  bind (load l) (fun o =>
    match o with NdArray2 d rs => ret (d, rs) | _ => raise TypeError end).

Definition load_frame (l : loc) : M (list review) :=
  bind (load l) (fun o =>
    match o with DataFrame rs => ret rs | _ => raise TypeError end).

(** [h'] keeps every object of [h] where it was. *)
Definition preserves (h h' : heap) : Prop :=
  forall l o, nth_error h l = Some o -> nth_error h' l = Some o.

End Objects.

Arguments review : clear implicits.
Arguments csv_table : clear implicits.
Arguments hit : clear implicits.
Arguments pyobj : clear implicits.
Arguments heap : clear implicits.
Arguments M : clear implicits.

Declare Scope py_scope.
Delimit Scope py_scope with py.
Notation "x <- c1 ;; c2" := (bind c1 (fun x => c2))
  (at level 61, c1 at next level, right associativity) : py_scope.
Notation "' p <- c1 ;; c2" := (bind c1 (fun p => c2))
  (at level 61, p pattern, c1 at next level, right associativity) : py_scope.
Notation "c1 ;;; c2" := (bind c1 (fun _ => c2))
  (at level 61, right associativity) : py_scope.

Open Scope py_scope.

(* ------------------------------------------------------------------ *)
(** ** The script *)

Section Script.
Context {F : Type} `{Argsort F}.

(** [pd.read_csv] on the file system: the table stored at a path, if any. *)
Variable read_csv : string -> option (csv_table F).

(** [client.embeddings.create(model, input=[query]).data[0].embedding]:
    the embedding service. *)
Variable embeddings_create : string -> list F.

Definition INPUT_PATH : string := "data/reviews_with_embeddings.csv".

(** The default number of results. *)
Definition DEFAULT_TOP_K : Z := 5.

(** [np.stack]: refuses an empty list and rows of unequal shape. *)
Definition np_stack (vectors : list (list F))
  : pyexn + (nat * list (list F)) :=
  match vectors with
  | [] => inl ValueError
  | v :: vs =>
      if forallb (fun w => length w =? length v) vs
      then inr (length v, vectors)
      else inl ValueError
  end.

(** Indexing with an integer array ([df.iloc[idx]], [scores[idx]]). *)
Fixpoint fancy_index {A} (l : list A) (idx : list nat) : pyexn + list A :=
  match idx with
  | [] => inr []
  | i :: idx' =>
      match nth_error l i, fancy_index l idx' with
      | Some a, inr r => inr (a :: r)
      | _, _ => inl IndexError
      end
  end.

(** [norm_matrix @ query_norm]: a new array of one dot product per row. *)
Definition matmul (m v : loc) : M F loc :=
  '(d, rs) <- load_matrix m ;;
  x <- load_vector v ;;
  if d =? length x then alloc (NdArray1 (map (fun r => dot r x) rs))
  else raise ValueError.

(** [a[mask] = v]: overwrites, in place, the entries the mask selects. *)
Definition setitem_mask (a : loc) (mask : list bool) (v : F) : M F unit :=
  x <- load_vector a ;;
  if length mask =? length x
  then store a (NdArray1 (map (fun p : bool * F => if fst p then v else snd p)
                              (combine mask x)))
  else raise IndexError.

Definition load_data (path : string) : M F (loc * loc) :=
  match read_csv path with
  | None => raise FileNotFoundError
  | Some table =>
      df <- alloc (DataFrame (csv_rows table)) ;;
      if negb (existsb (String.eqb "embedding") (csv_columns table))
      then raise ValueError
      else
        rows <- load_frame df ;;
        let vectors := map (@embedding F) rows in
        '(d, rs) <- lift (np_stack vectors) ;;
        embed_matrix <- alloc (NdArray2 d rs) ;;
        ret (df, embed_matrix)
  end.

Definition normalize_matrix (matrix : loc) : M F loc :=
  '(d, rs) <- load_matrix matrix ;;
  norms <- alloc (NdArray2 1 (map (fun r => [l2_norm r]) rs)) ;;
  '(_, ns) <- load_matrix norms ;;
  denoms <- alloc (NdArray2 1 (map (map (fun n => f_add n f_eps)) ns)) ;;
  '(_, ds) <- load_matrix denoms ;;
  alloc (NdArray2 d (map (fun p : list F * list F =>
                            scale_row (fst p) (hd f_zero (snd p)))
                         (combine rs ds))).

(** [np.argsort(scores)[::-1][:top_k]] *)
Definition top_indices (scores : list F) (top_k : Z) : list nat :=
  py_slice_to (rev (argsort scores)) top_k.

(** [df["Score"].values != score_filter] *)
Definition filter_mask (rows : list (review F)) (wanted : Z) : list bool :=
  map (fun r => negb (Score r =? wanted)%Z) rows.

Definition to_hit (p : review F * F) : hit F :=
  {| hit_Score := Score (fst p);
     hit_similarity := snd p;
     hit_content := content (fst p) |}.

Definition semantic_search (query : string) (df norm_matrix : loc)
           (top_k : Z) (score_filter : option Z) : M F (list (hit F)) :=
  query_vec <- alloc (NdArray1 (embeddings_create query)) ;;
  qv <- load_vector query_vec ;;
  query_norm <- alloc (NdArray1 (scale_row qv (denominator qv))) ;;
  scores <- matmul norm_matrix query_norm ;;
  match score_filter with
  | Some wanted =>
      rows <- load_frame df ;;
      setitem_mask scores (filter_mask rows wanted) f_neg_one
  | None => ret tt
  end ;;;
  s <- load_vector scores ;;
  let idx := top_indices s top_k in
  rows <- load_frame df ;;
  results <- lift (fancy_index rows idx) ;;
  sims <- lift (fancy_index s idx) ;;
  ret (map to_hit (combine results sims)).

(** The first lines of [main]: load the table, normalize once. *)
Definition build (path : string) : M F (loc * loc) :=
  '(df, embed_matrix) <- load_data path ;;
  norm_matrix <- normalize_matrix embed_matrix ;;
  ret (df, norm_matrix).

End Script.

(* ------------------------------------------------------------------ *)
(** ** Scores, masks and built indexes *)

Section Observations.
Context {F : Type} `{Scalar F}.

(** The returned row for index [i]: row [i] of the frame with score [i]. *)
Definition hit_at (rows : list (review F)) (s : list F) (i : nat)
  : option (hit F) :=
  option_map to_hit (nth_error (combine rows s) i).

(** The scores before the filter: one dot product per stored row. *)
Definition raw_scores (rs : list (list F)) (query_vec : list F) : list F :=
  map (fun r => dot r (normalize_row query_vec)) rs.

(** The scores the ranking sees: the filter overwrites with [-1.0]. *)
Definition masked (rows : list (review F)) (score_filter : option Z)
           (s : list F) : list F :=
  match score_filter with
  | Some wanted =>
      map (fun p : bool * F => if fst p then f_neg_one else snd p)
          (combine (filter_mask rows wanted) s)
  | None => s
  end.

(** An index as [build] leaves it: the frame at [df], and at [nm] the
    normalized copy of the vectors of its [embedding] column. *)
Definition built_index (h : heap F) (df nm : loc) (rows : list (review F))
           (d : nat) : Prop :=
  nth_error h df = Some (DataFrame rows) /\
  nth_error h nm =
    Some (NdArray2 d (map normalize_row (map (@embedding F) rows))) /\
  Forall (fun r => length (embedding r) = d) rows.

(** Ascending, and on equal keys the smaller index first. *)
Definition stable_order (s : list F) (i j : nat) : Prop :=
  ascending s i j /\ (ascending s j i -> i < j).

(** [i] may stand before [j] in a descending order of [s]. *)
Definition descending (s : list F) (i j : nat) : Prop := ascending s j i.

(** Descending, and on equal keys the larger index first. *)
Definition reverse_stable_order (s : list F) (i j : nat) : Prop :=
  stable_order s j i.

End Observations.

(* ------------------------------------------------------------------ *)
(** ** The stable insertion sort is an [Argsort] *)

Section StableArgsort.
Context {F : Type} `{Scalar F}.

Lemma StronglySorted_impl {A} (R R' : A -> A -> Prop) (l : list A) :
  (forall a b, R a b -> R' a b) ->
  StronglySorted R l -> StronglySorted R' l.
Proof.
  intros HR. induction 1 as [|a l Hl IH Ha]; constructor; auto.
  eapply Forall_impl; [|exact Ha]. auto.
Qed.

Lemma insert_perm (s : list F) (i : nat) (l : list nat) :
  Permutation (insert s i l) (i :: l).
Proof.
  induction l as [|j l IH]; cbn [insert]; [reflexivity|].
  destruct (f_leb (key_at s j) (key_at s i)); [|reflexivity].
  rewrite IH. apply perm_swap.
Qed.

Lemma insert_stable (s : list F) (i : nat) (l : list nat) :
  StronglySorted (stable_order s) l ->
  Forall (fun j => j < i) l ->
  StronglySorted (stable_order s) (insert s i l).
Proof.
  induction l as [|j l IH]; intros Hs Hlt; cbn [insert].
  - repeat constructor.
  - apply StronglySorted_inv in Hs. destruct Hs as [Hs Hj].
    inversion Hlt as [|? ? Hji Hlt']; subst.
    destruct (f_leb (key_at s j) (key_at s i)) eqn:E.
    + constructor; [auto|].
      eapply Permutation_Forall; [symmetry; apply insert_perm|].
      constructor; [|exact Hj]. split; [exact E|auto].
    + assert (Hij : ascending s i j).
      { destruct (f_leb_total (key_at s i) (key_at s j)) as [T|T];
          [exact T|unfold ascending; congruence]. }
      constructor; [constructor; assumption|].
      constructor.
      * split; [exact Hij|]. unfold ascending. congruence.
      * eapply Forall_impl; [|exact Hj].
        intros z [Hjz _]. split.
        -- unfold ascending in *. eapply f_leb_trans; eassumption.
        -- intros Hzi. exfalso.
           assert (f_leb (key_at s j) (key_at s i) = true)
             by (unfold ascending in *; eapply f_leb_trans; eassumption).
           congruence.
Qed.

Lemma insertion_fold_perm (s : list F) (todo acc : list nat) :
  Permutation (fold_left (fun a i => insert s i a) todo acc) (acc ++ todo).
Proof.
  revert acc. induction todo as [|i todo IH]; intros acc; cbn [fold_left].
  - rewrite app_nil_r. reflexivity.
  - rewrite IH, insert_perm. apply Permutation_middle.
Qed.

Lemma insertion_fold_stable (s : list F) (n a : nat) (acc : list nat) :
  StronglySorted (stable_order s) acc ->
  Forall (fun j => j < a) acc ->
  StronglySorted (stable_order s)
                 (fold_left (fun l i => insert s i l) (seq a n) acc).
Proof.
  revert a acc. induction n as [|n IH]; intros a acc Hs Hlt;
    cbn [seq fold_left]; [exact Hs|].
  apply IH.
  - apply insert_stable; assumption.
  - eapply Permutation_Forall; [symmetry; apply insert_perm|].
    constructor; [lia|].
    eapply Forall_impl; [|exact Hlt]. cbn. intros; lia.
Qed.

Lemma insertion_argsort_perm (s : list F) :
  Permutation (insertion_argsort s) (seq 0 (length s)).
Proof. unfold insertion_argsort. apply insertion_fold_perm. Qed.

Lemma insertion_argsort_stable (s : list F) :
  StronglySorted (stable_order s) (insertion_argsort s).
Proof.
  unfold insertion_argsort. apply insertion_fold_stable; constructor.
Qed.

Lemma insertion_argsort_sorted (s : list F) :
  StronglySorted (ascending s) (insertion_argsort s).
Proof.
  eapply StronglySorted_impl; [|apply insertion_argsort_stable].
  intros a b [Hab _]. exact Hab.
Qed.

End StableArgsort.

(** [np.argsort] as numpy runs it on short arrays. *)
Definition stable_argsort {F} `{Scalar F} : Argsort F := {|
  argsort := insertion_argsort;
  argsort_perm := insertion_argsort_perm;
  argsort_sorted := insertion_argsort_sorted
|}.

(* ------------------------------------------------------------------ *)
(** ** What a run of the script computes *)

Section Heap.
Context {F : Type}.
Implicit Types (h : heap F) (o : pyobj F) (l : loc).

Lemma nth_error_alloc h o t : nth_error (h ++ o :: t) (length h) = Some o.
Proof.
  rewrite nth_error_app2 by lia. now rewrite Nat.sub_diag.
Qed.

Lemma nth_error_keep h t l o :
  nth_error h l = Some o -> nth_error (h ++ t) l = Some o.
Proof.
  intros E. rewrite nth_error_app1; [exact E|].
  apply nth_error_Some. congruence.
Qed.

Lemma nth_error_alloc1 h a o t :
  nth_error (h ++ a :: o :: t) (length h + 1) = Some o.
Proof.
  rewrite nth_error_app2 by lia.
  now replace (length h + 1 - length h) with 1 by lia.
Qed.

Lemma nth_error_alloc2 h a b o t :
  nth_error (h ++ a :: b :: o :: t) (length h + 2) = Some o.
Proof.
  rewrite nth_error_app2 by lia.
  now replace (length h + 2 - length h) with 2 by lia.
Qed.

Lemma preserves_refl h : preserves h h.
Proof. intros l o E. exact E. Qed.

Lemma preserves_app h t : preserves h (h ++ t).
Proof. intros l o E. now apply nth_error_keep. Qed.

Lemma preserves_trans h1 h2 h3 :
  preserves h1 h2 -> preserves h2 h3 -> preserves h1 h3.
Proof. intros P Q l o E. apply Q, P, E. Qed.

Lemma update_other h l l' o :
  l <> l' -> nth_error (update h l o) l' = nth_error h l'.
Proof.
  revert l l'. induction h as [|x h IH]; intros [|l] [|l'] N;
    cbn; try reflexivity; try congruence.
  apply IH. congruence.
Qed.

Lemma update_here h l o :
  l < length h -> nth_error (update h l o) l = Some o.
Proof.
  revert l. induction h as [|x h IH]; intros [|l] L; cbn in *;
    try lia; try reflexivity.
  apply IH. lia.
Qed.

Lemma update_last h o o' : update (h ++ [o]) (length h) o' = h ++ [o'].
Proof. induction h as [|x h IH]; cbn; [reflexivity|]. now rewrite IH. Qed.

Lemma load_vector_run h l x :
  nth_error h l = Some (NdArray1 x) -> load_vector l h = (inr x, h).
Proof. intros E. unfold load_vector, bind, load. now rewrite E. Qed.

Lemma load_matrix_run h l d rs :
  nth_error h l = Some (NdArray2 d rs) -> load_matrix l h = (inr (d, rs), h).
Proof. intros E. unfold load_matrix, bind, load. now rewrite E. Qed.

Lemma load_frame_run h l rows :
  nth_error h l = Some (DataFrame rows) -> load_frame l h = (inr rows, h).
Proof. intros E. unfold load_frame, bind, load. now rewrite E. Qed.

End Heap.

Section Indexing.
Context {F : Type} `{Argsort F}.

Lemma nth_error_combine {A B} (l : list A) (l' : list B) i a b :
  nth_error l i = Some a -> nth_error l' i = Some b ->
  nth_error (combine l l') i = Some (a, b).
Proof.
  revert l' i. induction l as [|x l IH]; intros [|y l'] [|i];
    cbn; try congruence.
  apply IH.
Qed.

Lemma fancy_index_pair (rows : list (review F)) (s : list F) idx :
  length rows = length s ->
  Forall (fun i => i < length s) idx ->
  exists res sims,
    fancy_index rows idx = inr res /\
    fancy_index s idx = inr sims /\
    map Some (map to_hit (combine res sims)) = map (hit_at rows s) idx.
Proof.
  intros L. induction 1 as [|i idx Hi _ IH]; cbn [fancy_index].
  - exists [], []. auto.
  - destruct IH as (res & sims & E1 & E2 & E3).
    destruct (nth_error rows i) as [r|] eqn:Er;
      [|apply nth_error_None in Er; lia].
    destruct (nth_error s i) as [x|] eqn:Ex;
      [|apply nth_error_None in Ex; lia].
    exists (r :: res), (x :: sims). rewrite E1, E2.
    repeat split. cbn [combine map]. rewrite E3. f_equal.
    unfold hit_at. now rewrite (nth_error_combine _ _ _ Er Ex).
Qed.

Lemma firstn_incl {A} n (l : list A) x : In x (firstn n l) -> In x l.
Proof.
  revert l. induction n as [|n IH]; intros [|a l]; cbn; try tauto.
  intros [E|I]; [left; exact E|right; apply IH, I].
Qed.

Lemma py_slice_to_incl {A} (l : list A) k x :
  In x (py_slice_to l k) -> In x l.
Proof.
  unfold py_slice_to. destruct (0 <=? k)%Z; apply firstn_incl.
Qed.

Lemma rev_argsort_bound (s : list F) i :
  In i (rev (argsort s)) -> i < length s.
Proof.
  intros I. apply in_rev in I.
  apply (Permutation_in _ (argsort_perm s)) in I.
  apply in_seq in I. lia.
Qed.

Lemma top_indices_bound (s : list F) k :
  Forall (fun i => i < length s) (top_indices s k).
Proof.
  apply Forall_forall. intros i I.
  apply rev_argsort_bound. eapply py_slice_to_incl, I.
Qed.

Lemma top_indices_length (s : list F) k :
  (0 <= k)%Z -> length (top_indices s k) = Nat.min (Z.to_nat k) (length s).
Proof.
  intros K. unfold top_indices, py_slice_to.
  destruct (Z.leb_spec 0 k); [|lia].
  rewrite length_firstn, length_rev.
  now rewrite (Permutation_length (argsort_perm s)), length_seq.
Qed.

End Indexing.

Section Runs.
Context {F : Type} `{Argsort F}.
Variable read_csv : string -> option (csv_table F).
Variable embeddings_create : string -> list F.
Implicit Types (h : heap F) (rows : list (review F)) (rs : list (list F)).

Lemma bind_run {A B} (m : M F A) (k : A -> M F B) h a h' :
  m h = (inr a, h') -> bind m k h = k a h'.
Proof. intros E. unfold bind. now rewrite E. Qed.

Lemma bind_fail {A B} (m : M F A) (k : A -> M F B) h e h' :
  m h = (inl e, h') -> bind m k h = (inl e, h').
Proof. intros E. unfold bind. now rewrite E. Qed.

Lemma alloc_run h (o : pyobj F) : alloc o h = (inr (length h), h ++ [o]).
Proof. reflexivity. Qed.

(** One successful step of a [bind]. *)
Tactic Notation "run" tactic3(tac) :=
  erewrite bind_run by tac; cbv beta iota.

(** Heaps are kept in the shape [h ++ [o1; ...; on]]. *)
Ltac tidy := rewrite ?length_app, <- ?app_assoc; cbn [length app].

Lemma length_raw_scores rs qv : length (raw_scores rs qv) = length rs.
Proof. apply length_map. Qed.

Lemma length_masked rows sf s :
  length rows = length s -> length (masked rows sf s) = length s.
Proof.
  intros L. destruct sf as [w|]; cbn [masked]; [|reflexivity].
  unfold filter_mask. rewrite length_map, length_combine, length_map. lia.
Qed.

Lemma normalize_rows_zip rs :
  map (fun p : list F * list F => scale_row (fst p) (hd f_zero (snd p)))
      (combine rs (map (fun r => [denominator r]) rs))
  = map normalize_row rs.
Proof. induction rs as [|r rs IH]; cbn; [reflexivity|]. now rewrite IH. Qed.

Lemma normalize_matrix_run h l d rs :
  nth_error h l = Some (NdArray2 d rs) ->
  normalize_matrix l h =
    (inr (length h + 2),
     h ++ [NdArray2 1 (map (fun r => [l2_norm r]) rs);
           NdArray2 1 (map (fun r => [denominator r]) rs);
           NdArray2 d (map normalize_row rs)]).
Proof.
  intros E. unfold normalize_matrix.
  run (apply load_matrix_run, E).
  run (apply alloc_run).
  run (apply load_matrix_run, nth_error_alloc).
  run (apply alloc_run).
  run (apply load_matrix_run, nth_error_alloc).
  rewrite alloc_run, !length_app, <- !app_assoc. cbn [length app].
  rewrite map_map. cbn [map]. unfold denominator at 1.
  rewrite normalize_rows_zip.
  do 2 f_equal. lia.
Qed.

Lemma length_normalize_row (x : list F) :
  length (normalize_row x) = length x.
Proof. apply length_map. Qed.

Lemma matmul_run h m v d rs x :
  nth_error h m = Some (NdArray2 d rs) ->
  nth_error h v = Some (NdArray1 x) ->
  matmul m v h =
    if d =? length x
    then (inr (length h), h ++ [NdArray1 (map (fun r => dot r x) rs)])
    else (inl ValueError, h).
Proof.
  intros Em Ev. unfold matmul.
  run (apply load_matrix_run, Em).
  run (apply load_vector_run, Ev).
  destruct (d =? length x); reflexivity.
Qed.

(** A query of the wrong dimension: [@] raises, after the two query
    arrays were allocated. *)
Lemma semantic_search_mismatch q df nm k sf h d rs :
  nth_error h nm = Some (NdArray2 d rs) ->
  length (embeddings_create q) <> d ->
  semantic_search embeddings_create q df nm k sf h =
    (inl ValueError,
     h ++ [NdArray1 (embeddings_create q);
           NdArray1 (normalize_row (embeddings_create q))]).
Proof.
  intros Em N. unfold semantic_search.
  run (apply alloc_run).
  run (apply load_vector_run, nth_error_alloc).
  run (apply alloc_run). tidy.
  erewrite bind_fail; [reflexivity|].
  erewrite matmul_run;
    [|apply nth_error_keep, Em|apply nth_error_alloc1].
  fold (normalize_row (embeddings_create q)).
  rewrite length_normalize_row.
  destruct (Nat.eqb_spec d (length (embeddings_create q))); [congruence|].
  reflexivity.
Qed.

Lemma setitem_mask_run h (x : list F) mask v :
  length mask = length x ->
  setitem_mask (length h) mask v (h ++ [NdArray1 x]) =
    (inr tt,
     h ++ [NdArray1 (map (fun p : bool * F => if fst p then v else snd p)
                         (combine mask x))]).
Proof.
  intros L. unfold setitem_mask.
  run (apply load_vector_run, nth_error_alloc).
  rewrite L, Nat.eqb_refl. unfold store. now rewrite update_last.
Qed.

(** A query of the right dimension against a frame and a matrix of equal
    length: three arrays are allocated (query, normalized query, scores)
    and the rows at [top_indices] are returned with their scores. *)
Lemma semantic_search_run q df nm k sf h rows d rs :
  nth_error h df = Some (DataFrame rows) ->
  nth_error h nm = Some (NdArray2 d rs) ->
  length (embeddings_create q) = d ->
  length rows = length rs ->
  let s := masked rows sf (raw_scores rs (embeddings_create q)) in
  exists hits,
    semantic_search embeddings_create q df nm k sf h =
      (inr hits,
       h ++ [NdArray1 (embeddings_create q);
             NdArray1 (normalize_row (embeddings_create q));
             NdArray1 s]) /\
    map Some hits = map (hit_at rows s) (top_indices s k).
Proof.
  intros Ef Em D L s.
  assert (Ls : length rows = length s).
  { unfold s. rewrite length_masked; rewrite length_raw_scores; lia. }
  destruct (fancy_index_pair (idx := top_indices s k) rows s Ls)
    as (res & sims & E1 & E2 & E3); [apply top_indices_bound|].
  exists (map to_hit (combine res sims)). split; [|exact E3].
  unfold semantic_search.
  run (apply alloc_run).
  run (apply load_vector_run, nth_error_alloc).
  run (apply alloc_run). tidy.
  fold (normalize_row (embeddings_create q)).
  run (erewrite matmul_run;
       [|apply nth_error_keep, Em|apply nth_error_alloc1];
       rewrite length_normalize_row, D, Nat.eqb_refl; reflexivity).
  tidy. fold (raw_scores rs (embeddings_create q)).
  set (qv := embeddings_create q) in *.
  assert (Run : forall B (k' : unit -> M F B),
    bind match sf with
         | Some wanted =>
             rows0 <- load_frame df ;;
             setitem_mask (length h + 2) (filter_mask rows0 wanted) f_neg_one
         | None => ret tt
         end k'
         (h ++ [NdArray1 qv; NdArray1 (normalize_row qv);
                NdArray1 (raw_scores rs qv)])
    = k' tt (h ++ [NdArray1 qv; NdArray1 (normalize_row qv); NdArray1 s])).
  { intros B k'. unfold s, masked. destruct sf as [w|]; [|reflexivity].
    apply bind_run.
    run (apply load_frame_run, nth_error_keep, Ef).
    change (h ++ [NdArray1 qv; NdArray1 (normalize_row qv);
                  NdArray1 (raw_scores rs qv)])
      with (h ++ [NdArray1 qv; NdArray1 (normalize_row qv)]
              ++ [NdArray1 (raw_scores rs qv)]).
    rewrite app_assoc.
    replace (length h + 2)
      with (length (h ++ [NdArray1 qv; NdArray1 (normalize_row qv)]))
      by (rewrite length_app; reflexivity).
    rewrite setitem_mask_run.
    - now rewrite <- app_assoc.
    - unfold filter_mask. rewrite length_map, length_raw_scores. exact L. }
  rewrite Run.
  run (apply load_vector_run, nth_error_alloc2).
  run (apply load_frame_run, nth_error_keep, Ef).
  fold s.
  unfold lift at 1. unfold bind at 1. rewrite E1.
  unfold lift at 1. unfold bind at 1. rewrite E2.
  reflexivity.
Qed.

Lemma np_stack_ok (vectors : list (list F)) d rs :
  np_stack vectors = inr (d, rs) ->
  rs = vectors /\ Forall (fun v => length v = d) vectors.
Proof.
  unfold np_stack. destruct vectors as [|v vs]; [discriminate|].
  destruct (forallb _ vs) eqn:E; [|discriminate].
  intros [= <- <-]. split; [reflexivity|].
  constructor; [reflexivity|].
  rewrite forallb_forall in E. apply Forall_forall.
  intros w I. now apply Nat.eqb_eq, E.
Qed.

Lemma np_stack_inconsistent (vectors : list (list F)) v w :
  In v vectors -> In w vectors -> length v <> length w ->
  np_stack vectors = inl ValueError.
Proof.
  intros Iv Iw N. destruct (np_stack vectors) as [[]|[d rs]] eqn:E.
  - unfold np_stack in E. destruct vectors; [tauto|].
    destruct (forallb _ _); discriminate.
  - reflexivity.
  - unfold np_stack in E. destruct vectors; [tauto|].
    destruct (forallb _ _); discriminate.
  - unfold np_stack in E. destruct vectors; [tauto|].
    destruct (forallb _ _); discriminate.
  - apply np_stack_ok in E. destruct E as [_ E].
    rewrite Forall_forall in E.
    rewrite (E v Iv), (E w Iw) in N. tauto.
Qed.

Lemma load_data_run path table h :
  read_csv path = Some table ->
  let h1 := h ++ [DataFrame (csv_rows table)] in
  load_data read_csv path h =
    if negb (existsb (String.eqb "embedding") (csv_columns table))
    then (inl ValueError, h1)
    else match np_stack (map (@embedding F) (csv_rows table)) with
         | inl e => (inl e, h1)
         | inr (d, rs) =>
             (inr (length h, length h + 1), h1 ++ [NdArray2 d rs])
         end.
Proof.
  intros E h1. unfold load_data. rewrite E.
  run (apply alloc_run). fold h1.
  destruct (negb _); [reflexivity|].
  run (apply load_frame_run, nth_error_alloc).
  unfold lift at 1. unfold bind at 1.
  destruct (np_stack _) as [e|[d rs]]; [reflexivity|].
  run (apply alloc_run). unfold ret, h1. now rewrite length_app.
Qed.

(** [build] leaves a [built_index]. *)
Lemma build_built_index path table h d rs :
  read_csv path = Some table ->
  existsb (String.eqb "embedding") (csv_columns table) = true ->
  np_stack (map (@embedding F) (csv_rows table)) = inr (d, rs) ->
  exists h',
    build read_csv path h = (inr (length h, length h + 4), h') /\
    built_index h' (length h) (length h + 4) (csv_rows table) d /\
    preserves h h'.
Proof.
  intros E C S. destruct (np_stack_ok _ S) as [-> HF].
  eexists. unfold build.
  run (rewrite (load_data_run _ E), C, S; reflexivity).
  tidy.
  run (apply normalize_matrix_run, nth_error_alloc1).
  tidy. unfold ret.
  replace (length h + 2 + 2) with (length h + 4) by lia.
  split; [reflexivity|]. split; [|apply preserves_app].
  split; [apply nth_error_alloc|].
  split.
  - rewrite nth_error_app2 by lia.
    now replace (length h + 4 - length h) with 4 by lia.
  - apply Forall_map in HF. exact HF.
Qed.

End Runs.

(* ------------------------------------------------------------------ *)
(** ** The ranking *)

Section Ranking.
Context {F : Type} `{Scalar F}.

Lemma StronglySorted_snoc {A} (R : A -> A -> Prop) l a :
  StronglySorted R l -> Forall (fun x => R x a) l ->
  StronglySorted R (l ++ [a]).
Proof.
  induction 1 as [|b l Hl IH Hb]; intros Ha; cbn.
  - repeat constructor.
  - inversion Ha; subst. constructor; [auto|].
    apply Forall_app. split; [exact Hb|]. repeat constructor. assumption.
Qed.

Lemma StronglySorted_rev {A} (R : A -> A -> Prop) l :
  StronglySorted R l -> StronglySorted (fun a b => R b a) (rev l).
Proof.
  induction 1 as [|a l Hl IH Ha]; cbn; [constructor|].
  apply StronglySorted_snoc; [exact IH|]. now apply Forall_rev.
Qed.

Lemma Forall_firstn {A} (P : A -> Prop) n l :
  Forall P l -> Forall P (firstn n l).
Proof.
  intros HP. apply Forall_forall. intros x I.
  rewrite Forall_forall in HP. eapply HP, firstn_incl, I.
Qed.

Lemma StronglySorted_firstn {A} (R : A -> A -> Prop) n l :
  StronglySorted R l -> StronglySorted R (firstn n l).
Proof.
  intros HS. revert n. induction HS as [|a l Hl IH Ha]; intros [|n]; cbn;
    try constructor; auto.
  now apply Forall_firstn.
Qed.

Lemma StronglySorted_py_slice {A} (R : A -> A -> Prop) l k :
  StronglySorted R l -> StronglySorted R (py_slice_to l k).
Proof.
  intros HS. unfold py_slice_to.
  destruct (0 <=? k)%Z; now apply StronglySorted_firstn.
Qed.

Lemma StronglySorted_map {A B} (f : A -> B) (R : B -> B -> Prop) l :
  StronglySorted (fun a b => R (f a) (f b)) l ->
  StronglySorted R (map f l).
Proof.
  induction 1 as [|a l Hl IH Ha]; cbn; constructor; [exact IH|].
  apply Forall_map. exact Ha.
Qed.

Lemma top_indices_descending `{!Argsort F} (s : list F) k :
  StronglySorted (descending s) (top_indices s k).
Proof.
  unfold top_indices. apply StronglySorted_py_slice.
  apply (StronglySorted_rev (argsort_sorted s)).
Qed.

Lemma top_indices_reverse_stable (s : list F) k :
  StronglySorted (reverse_stable_order s)
                 (top_indices (H0 := stable_argsort) s k).
Proof.
  unfold top_indices. apply StronglySorted_py_slice.
  apply (StronglySorted_rev (insertion_argsort_stable s)).
Qed.

Lemma nth_error_combine_inv {A B} (l : list A) (l' : list B) i a b :
  nth_error (combine l l') i = Some (a, b) ->
  nth_error l i = Some a /\ nth_error l' i = Some b.
Proof.
  revert l' i. induction l as [|x l IH]; intros [|y l'] [|i]; cbn;
    try discriminate.
  - intros [= -> ->]. auto.
  - apply IH.
Qed.

Lemma hit_at_Some rows (s : list F) i ht :
  hit_at rows s i = Some ht ->
  exists r, nth_error rows i = Some r /\ ht = to_hit (r, key_at s i).
Proof.
  unfold hit_at. destruct (nth_error (combine rows s) i) as [[r x]|] eqn:E;
    [|discriminate].
  intros [= <-]. apply nth_error_combine_inv in E. destruct E as [Er Ex].
  exists r. split; [exact Er|]. unfold key_at.
  now rewrite (nth_error_nth _ _ f_zero Ex).
Qed.

(** What [map Some hits = map (hit_at rows s) idx] says row by row. *)
Lemma hits_rows rows (s : list F) idx hits :
  map Some hits = map (hit_at rows s) idx ->
  Forall2 (fun i ht => exists r, nth_error rows i = Some r /\
                                 ht = to_hit (r, key_at s i)) idx hits.
Proof.
  revert hits. induction idx as [|i idx IH]; intros [|ht hits]; cbn;
    try discriminate; intros E; constructor.
  - injection E as E _. now apply hit_at_Some.
  - injection E as _ E. now apply IH.
Qed.

Lemma hits_similarity rows (s : list F) idx hits :
  map Some hits = map (hit_at rows s) idx ->
  map (@hit_similarity F) hits = map (key_at s) idx.
Proof.
  intros E. apply hits_rows in E.
  induction E as [|i ht idx hits (r & _ & ->) _ IH]; cbn; [reflexivity|].
  now rewrite IH.
Qed.

Lemma hits_length rows (s : list F) idx hits :
  map Some hits = map (hit_at rows s) idx -> length hits = length idx.
Proof.
  intros E. apply (f_equal (@length _)) in E. now rewrite !length_map in E.
Qed.

End Ranking.

(* ------------------------------------------------------------------ *)
(** ** Concrete indexes, in binary32 *)

Module Demo.

Definition f32 (n : Z) : Binary32.t := Binary32.of_Z n 0.

(** The binary32 nearest to [n / d]. *)
Definition ratio (n d : Z) : Binary32.t := Binary32.div (f32 n) (f32 d).

Definition mk (id score : Z) (text : string) (v : list Binary32.t)
  : review Binary32.t :=
  {| Id := id; ProductId := "B000"; Score := score;
     content := text; embedding := v |}.

Definition columns : list string :=
  ["Id"; "ProductId"; "Score"; "content"; "embedding"]%string.

Definition on_disk (t : csv_table Binary32.t) (path : string)
  : option (csv_table Binary32.t) :=
  if String.eqb path INPUT_PATH then Some t else None.

(** A = [1, 0], B = [0.9, 0.1], C = [0, 1]; B alone has one star. *)
Definition vec_A : list Binary32.t := [f32 1; f32 0].
Definition vec_B : list Binary32.t := [ratio 9 10; ratio 1 10].
Definition vec_C : list Binary32.t := [f32 0; f32 1].

Definition abc : csv_table Binary32.t :=
  {| csv_columns := columns;
     csv_rows := [mk 1 5 "A" vec_A; mk 2 1 "B" vec_B; mk 3 5 "C" vec_C] |}.

(** Two reviews with the same vector. *)
Definition twins : csv_table Binary32.t :=
  {| csv_columns := columns;
     csv_rows := [mk 1 5 "first" vec_A; mk 2 5 "second" vec_A] |}.

(** Rows of two and of one component. *)
Definition ragged : csv_table Binary32.t :=
  {| csv_columns := columns;
     csv_rows := [mk 1 5 "A" vec_A; mk 2 1 "short" [f32 1]] |}.

(** One review with the vector [3, 3]. *)
Definition diagonal : csv_table Binary32.t :=
  {| csv_columns := columns;
     csv_rows := [mk 1 5 "diagonal" [f32 3; f32 3]] |}.

(** One review whose vector is zero. *)
Definition null : csv_table Binary32.t :=
  {| csv_columns := columns;
     csv_rows := [mk 1 3 "zero" [f32 0; f32 0]] |}.

(** The heap [build] leaves, started on an empty one: the frame is at
    location 0 and the normalized matrix at location 4. *)
Definition built (t : csv_table Binary32.t) : heap Binary32.t :=
  snd (build (on_disk t) INPUT_PATH []).

(** The embedding service answering every text with [v]. *)
Definition answers (v : list Binary32.t) (_ : string) : list Binary32.t := v.

Definition search (t : csv_table Binary32.t) (v : list Binary32.t)
           (top_k : Z) (score_filter : option Z)
  : (pyexn + list (hit Binary32.t)) * heap Binary32.t :=
  semantic_search (H0 := stable_argsort) (answers v) "query" 0 4
                  top_k score_filter (built t).

Definition one : Binary32.t := f32 1.
Definition similarity_B : Binary32.t := Binary32.of_Z 16674602 (-24).

(** The binary32 next above 1.0: 1 + 2^-23, printed 1.0000001. *)
Definition above_one : Binary32.t := Binary32.of_Z 8388609 (-23).

End Demo.

(** Three vectors A, B, C; query A, top two, no filter: A, then B. *)
Example demo_top_two :
  fst (Demo.search Demo.abc Demo.vec_A 2 None) =
    inr [ {| hit_Score := 5; hit_similarity := Demo.one; hit_content := "A" |};
          {| hit_Score := 1; hit_similarity := Demo.similarity_B;
             hit_content := "B" |} ].
Proof. vm_compute. reflexivity. Qed.

Example demo_built : built_index (Demo.built Demo.abc) 0 4
                                 (csv_rows Demo.abc) 2.
Proof.
  split; [reflexivity|]. split; [vm_compute; reflexivity|].
  repeat constructor.
Qed.

Example eps_binary32 : Binary32.eps = S754_finite false 14411519 (-57).
Proof. vm_compute. reflexivity. Qed.

(** A zero vector is normalized to itself and scores 0.0 against itself. *)
Example demo_zero_vector :
  nth_error (Demo.built Demo.null) 4
    = Some (NdArray2 2 [[Binary32.zero; Binary32.zero]]) /\
  fst (Demo.search Demo.null [Demo.f32 0; Demo.f32 0] 1 None) =
    inr [ {| hit_Score := 3; hit_similarity := Binary32.zero;
             hit_content := "zero" |} ].
Proof. split; vm_compute; reflexivity. Qed.

(** An empty table cannot be built: [np.stack] refuses an empty list. *)
Example demo_empty_table :
  fst (build (Demo.on_disk {| csv_columns := Demo.columns; csv_rows := [] |})
             INPUT_PATH []) = inl ValueError.
Proof. reflexivity. Qed.

(** In binary32 too, a row of zeros is divided by [1e-10] itself. *)
Lemma binary32_zero_row_denominator (n : nat) :
  denominator (repeat Binary32.zero n) = Binary32.eps.
Proof.
  unfold denominator, l2_norm, dot.
  assert (Z : fold_left
                (fun acc (p : Binary32.t * Binary32.t) =>
                   f_add acc (f_mul (fst p) (snd p)))
                (combine (repeat Binary32.zero n) (repeat Binary32.zero n))
                f_zero = Binary32.zero).
  { induction n as [|n IH]; [reflexivity|exact IH]. }
  rewrite Z. reflexivity.
Qed.

(** A negative [top_k] drops rows from the end, as Python's slice does. *)
Example demo_negative_top_k :
  fst (Demo.search Demo.abc Demo.vec_A (-1) None) =
    inr [ {| hit_Score := 5; hit_similarity := Demo.one; hit_content := "A" |};
          {| hit_Score := 1; hit_similarity := Demo.similarity_B;
             hit_content := "B" |} ].
Proof. vm_compute. reflexivity. Qed.

(* ------------------------------------------------------------------ *)
(** ** Build *)

(** C9. [normalize_matrix] returns a new matrix and leaves the raw one as
    it was: the result sits at a location that was free before the call,
    every object of the heap is where and what it was, and so is the
    input matrix with every entry. *)
Theorem normalize_matrix_keeps_raw_matrix
        {F} `{Scalar F} (h : heap F) (matrix : loc) d rs :
  nth_error h matrix = Some (NdArray2 d rs) ->
  exists out h',
    normalize_matrix matrix h = (inr out, h') /\
    nth_error h out = None /\
    nth_error h' out = Some (NdArray2 d (map normalize_row rs)) /\
    preserves h h' /\
    nth_error h' matrix = Some (NdArray2 d rs).
Proof.
  intros E. do 2 eexists. split; [apply normalize_matrix_run, E|].
  split; [apply nth_error_None; lia|].
  split; [apply nth_error_alloc2|].
  split; [apply preserves_app|apply nth_error_keep, E].
Qed.

Lemma normalize_matrix_keeps_raw_matrix_witness :
  let raw := NdArray2 2 [Demo.vec_A; Demo.vec_B; Demo.vec_C] in
  let h := [DataFrame (csv_rows Demo.abc); raw] in
  nth_error h 1 = Some raw /\
  exists out h',
    normalize_matrix 1 h = (inr out, h') /\
    nth_error h out = None /\
    nth_error h' out =
      Some (NdArray2 2 (map normalize_row
                            [Demo.vec_A; Demo.vec_B; Demo.vec_C])) /\
    preserves h h' /\
    nth_error h' 1 = Some raw.
Proof.
  intros raw h. split; [reflexivity|].
  apply (@normalize_matrix_keeps_raw_matrix _ _ h 1 2
           [Demo.vec_A; Demo.vec_B; Demo.vec_C]).
  reflexivity.
Defined.

(** C7, as the code has it. A table in which two rows carry vectors of
    different lengths makes [load_data] raise [ValueError], the error of
    [np.stack] (and of the missing-column check); the objects of the heap
    are left as they were. *)
Theorem load_data_inconsistent_raises_ValueError
        {F} `{Scalar F} (read_csv : string -> option (csv_table F))
        path table (h : heap F) r1 r2 :
  read_csv path = Some table ->
  In r1 (csv_rows table) -> In r2 (csv_rows table) ->
  length (embedding r1) <> length (embedding r2) ->
  exists h',
    load_data read_csv path h = (inl ValueError, h') /\ preserves h h'.
Proof.
  intros E I1 I2 N. eexists. erewrite load_data_run by exact E.
  split; [|apply preserves_app].
  destruct (negb _); [reflexivity|].
  erewrite np_stack_inconsistent; [reflexivity| | |exact N];
    apply in_map; assumption.
Qed.

Lemma load_data_inconsistent_raises_ValueError_witness :
  let r1 := Demo.mk 1 5 "A" Demo.vec_A in
  let r2 := Demo.mk 2 1 "short" [Demo.f32 1] in
  Demo.on_disk Demo.ragged INPUT_PATH = Some Demo.ragged /\
  In r1 (csv_rows Demo.ragged) /\ In r2 (csv_rows Demo.ragged) /\
  length (embedding r1) <> length (embedding r2) /\
  exists h',
    load_data (Demo.on_disk Demo.ragged) INPUT_PATH [] =
      (inl ValueError, h') /\ preserves [] h'.
Proof.
  intros r1 r2.
  assert (E : Demo.on_disk Demo.ragged INPUT_PATH = Some Demo.ragged)
    by reflexivity.
  assert (I1 : In r1 (csv_rows Demo.ragged)) by (left; reflexivity).
  assert (I2 : In r2 (csv_rows Demo.ragged)) by (right; left; reflexivity).
  assert (N : length (embedding r1) <> length (embedding r2))
    by (cbn; discriminate).
  repeat split; try assumption.
  exact (@load_data_inconsistent_raises_ValueError
           _ _ _ _ _ [] r1 r2 E I1 I2 N).
Defined.

(** C7 as the spec words it fails: on the ragged table [load_data] raises,
    and what it raises is not a [ValidationError]. *)
Lemma load_data_ragged_not_ValidationError :
  (exists e h', load_data (Demo.on_disk Demo.ragged) INPUT_PATH []
                = (inl e, h')) /\
  ~ (exists e h',
        load_data (Demo.on_disk Demo.ragged) INPUT_PATH [] = (inl e, h')
        /\ exn_name e = "ValidationError"%string).
Proof.
  split.
  - do 2 eexists. vm_compute. reflexivity.
  - intros (e & h' & E & N). vm_compute in E.
    injection E as <- _. discriminate N.
Qed.

(* ------------------------------------------------------------------ *)
(** ** Query: errors and result length *)

(** C3, as the code has it. A query whose dimension differs from that of
    the index makes [semantic_search] raise [ValueError], the error of
    numpy's [@]; every object of the heap, the frame and the normalized
    matrix among them, is left as it was. *)
Theorem semantic_search_mismatch_raises_ValueError
        {F} `{Argsort F} (embeddings_create : string -> list F)
        query df nm top_k score_filter (h : heap F) rows d :
  built_index h df nm rows d ->
  length (embeddings_create query) <> d ->
  exists h',
    semantic_search embeddings_create query df nm top_k score_filter h
      = (inl ValueError, h') /\
    preserves h h' /\
    nth_error h' df = Some (DataFrame rows) /\
    nth_error h' nm =
      Some (NdArray2 d (map normalize_row (map (@embedding F) rows))).
Proof.
  intros (Ef & Em & _) N. eexists.
  split; [eapply semantic_search_mismatch; eassumption|].
  split; [apply preserves_app|].
  split; apply nth_error_keep; assumption.
Qed.

Lemma semantic_search_mismatch_raises_ValueError_witness :
  let h := Demo.built Demo.abc in
  built_index h 0 4 (csv_rows Demo.abc) 2 /\
  length (Demo.answers [Demo.one] "query") <> 2 /\
  exists h',
    Demo.search Demo.abc [Demo.one] 5 None = (inl ValueError, h') /\
    preserves h h' /\
    nth_error h' 0 = Some (DataFrame (csv_rows Demo.abc)) /\
    nth_error h' 4 =
      Some (NdArray2 2 (map normalize_row
                            (map (@embedding _) (csv_rows Demo.abc)))).
Proof.
  intros h.
  assert (B : built_index h 0 4 (csv_rows Demo.abc) 2) by exact demo_built.
  assert (N : length (Demo.answers [Demo.one] "query") <> 2)
    by (cbn; discriminate).
  split; [exact B|]. split; [exact N|].
  exact (@semantic_search_mismatch_raises_ValueError
           _ _ stable_argsort (Demo.answers [Demo.one]) "query" 0 4 5 None
           h _ 2 B N).
Defined.

(** C3 as the spec words it fails: a query of one component against the
    index of dimension two raises, and what it raises is not a
    [DimensionMismatchError]. *)
Lemma mismatch_not_DimensionMismatchError :
  (exists e h', Demo.search Demo.abc [Demo.one] 5 None = (inl e, h')) /\
  ~ (exists e h',
        Demo.search Demo.abc [Demo.one] 5 None = (inl e, h') /\
        exn_name e = "DimensionMismatchError"%string).
Proof.
  split.
  - do 2 eexists. vm_compute. reflexivity.
  - intros (e & h' & E & N). vm_compute in E.
    injection E as <- _. discriminate N.
Qed.

(** The number of rows returned, with or without a filter. *)
Lemma semantic_search_length
      {F} `{Argsort F} (embeddings_create : string -> list F)
      query df nm top_k score_filter (h : heap F) rows d :
  built_index h df nm rows d ->
  length (embeddings_create query) = d ->
  (0 <= top_k)%Z ->
  exists hits h',
    semantic_search embeddings_create query df nm top_k score_filter h
      = (inr hits, h') /\
    length hits = Nat.min (Z.to_nat top_k) (length rows).
Proof.
  intros (Ef & Em & _) D K.
  destruct (@semantic_search_run _ _ _ embeddings_create query df nm top_k
              score_filter h rows d _ Ef Em D) as (hits & E & Hh);
    [now rewrite !length_map|].
  exists hits. eexists. split; [exact E|].
  apply hits_length in Hh. rewrite Hh, top_indices_length by exact K.
  rewrite length_masked; rewrite length_raw_scores, !length_map; reflexivity.
Qed.

(** C10. With [top_k = 0] a query of the right dimension returns the empty
    frame and raises nothing. *)
Theorem top_k_zero_returns_empty
        {F} `{Argsort F} (embeddings_create : string -> list F)
        query df nm score_filter (h : heap F) rows d :
  built_index h df nm rows d ->
  length (embeddings_create query) = d ->
  exists h',
    semantic_search embeddings_create query df nm 0 score_filter h
      = (inr [], h').
Proof.
  intros B D.
  destruct (@semantic_search_length _ _ _ embeddings_create query df nm 0
              score_filter h rows d B D (Z.le_refl 0)) as (hits & h' & E & L).
  exists h'. destruct hits; [exact E|discriminate L].
Qed.

Lemma top_k_zero_returns_empty_witness :
  built_index (Demo.built Demo.abc) 0 4 (csv_rows Demo.abc) 2 /\
  length (Demo.answers Demo.vec_A "query") = 2 /\
  exists h', Demo.search Demo.abc Demo.vec_A 0 (Some 5%Z) = (inr [], h').
Proof.
  split; [exact demo_built|]. split; [reflexivity|].
  exact (@top_k_zero_returns_empty
           _ _ stable_argsort (Demo.answers Demo.vec_A) "query" 0 4
           (Some 5%Z) _ _ 2 demo_built eq_refl).
Defined.

(* ------------------------------------------------------------------ *)
(** ** Query: the filter *)

(** C1 at the failing input. Index A, B, C with stars 5, 1, 5; query A,
    the default [top_k = 5], filter on five stars. B fails the filter, is overwritten
    with [-1.0], and is returned all the same, after the two matches. *)
Theorem filter_returns_masked_row :
  exists h',
    Demo.search Demo.abc Demo.vec_A DEFAULT_TOP_K (Some 5%Z) =
      (inr [ {| hit_Score := 5; hit_similarity := Demo.one;
                hit_content := "A" |};
             {| hit_Score := 5; hit_similarity := Binary32.zero;
                hit_content := "C" |};
             {| hit_Score := 1; hit_similarity := Binary32.neg_one;
                hit_content := "B" |} ], h').
Proof. eexists. vm_compute. reflexivity. Qed.

(** C4 at the failing input. Two of the three reviews have five stars; the
    query with [top_k = 5] and the filter on five stars returns three rows. *)
Theorem filtered_length_counts_masked_rows :
  length (filter (fun r => (Score r =? 5)%Z) (csv_rows Demo.abc)) = 2 /\
  exists hits h',
    Demo.search Demo.abc Demo.vec_A DEFAULT_TOP_K (Some 5%Z)
      = (inr hits, h') /\
    length hits = 3.
Proof. split; [reflexivity|]. do 2 eexists. vm_compute. split; reflexivity. Qed.

(* ------------------------------------------------------------------ *)
(** ** Query: the order of the result *)




(* ------------------------------------------------------------------ *)
(** ** Exact arithmetic *)

Section ExactArithmetic.
Open Scope R_scope.

Fixpoint rdot (x y : list R) : R :=
  match x, y with
  | a :: x', b :: y' => a * b + rdot x' y'
  | _, _ => 0
  end.

Lemma dot_rdot (x y : list R) : dot x y = rdot x y.
Proof.
  unfold dot. cbn [f_zero f_add f_mul real_scalar].
  enough (G : forall acc,
             fold_left (fun a (p : R * R) => a + fst p * snd p)
                       (combine x y) acc = acc + rdot x y)
    by (rewrite G; lra).
  revert y. induction x as [|a x IH]; intros [|b y] acc; cbn;
    try lra.
  rewrite IH. lra.
Qed.

Lemma rdot_self_nonneg (x : list R) : 0 <= rdot x x.
Proof. induction x as [|a x IH]; cbn; [lra|nra]. Qed.

Lemma cauchy_schwarz_step (a b S A B : R) :
  0 <= A -> 0 <= B -> S * S <= A * B ->
  (a * b + S) * (a * b + S) <= (a * a + A) * (b * b + B).
Proof.
  intros HA HB IH.
  assert (X : 2 * (a * b * S) <= a * a * B + b * b * A).
  { destruct (Req_dec A 0) as [Z|NZ].
    - subst A. assert (E : S = 0) by nra. subst S. nra.
    - assert (0 < A) by lra.
      pose proof (Rle_0_sqr (a * S - b * A)) as Q. unfold Rsqr in Q.
      assert (0 <= a * a * (A * B - S * S))
        by (apply Rmult_le_pos; [apply Rle_0_sqr|lra]).
      assert (0 <= A * (a * a * B + b * b * A - 2 * (a * b * S))) by nra.
      nra. }
  nra.
Qed.

Lemma cauchy_schwarz (x y : list R) :
  rdot x y * rdot x y <= rdot x x * rdot y y.
Proof.
  revert y. induction x as [|a x IH]; intros [|b y]; cbn;
    try (rewrite ?Rmult_0_l, ?Rmult_0_r; lra).
  apply cauchy_schwarz_step; auto using rdot_self_nonneg.
Qed.

Lemma rdot_scale (x y : list R) (c e : R) :
  c <> 0 -> e <> 0 ->
  rdot (scale_row x c) (scale_row y e) = rdot x y / (c * e).
Proof.
  intros Hc He. revert y. induction x as [|a x IH]; intros [|b y];
    cbn - [Rdiv]; try (unfold Rdiv; lra).
  unfold scale_row in IH. rewrite IH. cbn [f_div real_scalar].
  field. auto.
Qed.

Lemma l2_norm_nonneg (x : list R) : 0 <= l2_norm x.
Proof. unfold l2_norm. cbn [f_sqrt real_scalar]. apply sqrt_pos. Qed.

Lemma l2_norm_sqr (x : list R) : l2_norm x * l2_norm x = rdot x x.
Proof.
  unfold l2_norm. cbn [f_sqrt real_scalar]. rewrite dot_rdot.
  apply sqrt_sqrt, rdot_self_nonneg.
Qed.

Lemma eps_pos : 0 < Exact.eps.
Proof. unfold Exact.eps. apply Rinv_0_lt_compat. lra. Qed.

Lemma denominator_pos (x : list R) : 0 < denominator x.
Proof.
  unfold denominator. cbn [f_add f_eps real_scalar].
  pose proof (l2_norm_nonneg x). pose proof eps_pos. lra.
Qed.

Lemma rdot_le_norms (x y : list R) :
  - (l2_norm x * l2_norm y) <= rdot x y <= l2_norm x * l2_norm y.
Proof.
  pose proof (cauchy_schwarz x y) as CS.
  rewrite <- (l2_norm_sqr x), <- (l2_norm_sqr y) in CS.
  pose proof (l2_norm_nonneg x). pose proof (l2_norm_nonneg y).
  set (n := l2_norm x) in *. set (m := l2_norm y) in *.
  assert (0 <= n * m) by nra.
  split; nra.
Qed.

(** Cosine of the normalized row and the normalized query. *)
Lemma normalized_dot (r q : list R) :
  dot (normalize_row r) (normalize_row q)
  = rdot r q / (denominator r * denominator q).
Proof.
  rewrite dot_rdot. unfold normalize_row.
  pose proof (denominator_pos r). pose proof (denominator_pos q).
  apply rdot_scale; lra.
Qed.

Lemma normalized_dot_bound (r q : list R) :
  -1 <= dot (normalize_row r) (normalize_row q) <= 1.
Proof.
  rewrite normalized_dot.
  pose proof (rdot_le_norms r q) as [Lo Hi].
  pose proof (denominator_pos r) as Pr.
  pose proof (denominator_pos q) as Pq.
  pose proof (l2_norm_nonneg r). pose proof (l2_norm_nonneg q).
  pose proof eps_pos.
  unfold denominator in *. cbn [f_add f_eps real_scalar] in *.
  set (n := l2_norm r) in *. set (m := l2_norm q) in *.
  set (c := (n + Exact.eps) * (m + Exact.eps)).
  assert (Pc : 0 < c) by (unfold c; nra).
  assert (n * m <= c) by (unfold c; nra).
  split.
  - apply Rmult_le_reg_r with c; [exact Pc|].
    unfold Rdiv. rewrite Rmult_assoc, Rinv_l by lra. lra.
  - apply Rmult_le_reg_r with c; [exact Pc|].
    unfold Rdiv. rewrite Rmult_assoc, Rinv_l by lra. lra.
Qed.

End ExactArithmetic.

(* ------------------------------------------------------------------ *)
(** ** Query: the scores, in exact arithmetic *)

Lemma masked_Forall {F} `{Scalar F} (P : F -> Prop) rows score_filter s :
  P f_neg_one -> Forall P s -> Forall P (masked rows score_filter s).
Proof.
  intros Pm Ps. destruct score_filter as [w|]; cbn [masked]; [|exact Ps].
  apply Forall_map, Forall_forall. intros [b x] I. cbn [fst snd].
  destruct b; [exact Pm|].
  apply in_combine_r in I. rewrite Forall_forall in Ps. now apply Ps.
Qed.

Lemma search_scores_bound (rows : list (review R)) score_filter (q : list R) :
  Forall (fun x => (-1 <= x <= 1)%R)
         (masked rows score_filter
                 (raw_scores (map normalize_row (map (@embedding R) rows)) q)).
Proof.
  apply masked_Forall; [cbn; lra|].
  unfold raw_scores. apply Forall_map, Forall_map, Forall_map.
  apply Forall_forall. intros r _. apply normalized_dot_bound.
Qed.



Module ExactDemo.

(** One review with the vector [3, 4] and one with [1, 0]. *)
Definition rows : list (review R) :=
  [ {| Id := 1; ProductId := "B000"; Score := 5; content := "long";
       embedding := [3; 4]%R |};
    {| Id := 2; ProductId := "B000"; Score := 1; content := "unit";
       embedding := [1; 0]%R |} ].

Definition built : heap R :=
  [ DataFrame rows;
    NdArray2 2 (map normalize_row (map (@embedding R) rows)) ].

(** One review whose vector is zero. *)
Definition null_rows : list (review R) :=
  [ {| Id := 1; ProductId := "B000"; Score := 3; content := "zero";
       embedding := [0; 0]%R |} ].

(** Two reviews with the same vector. *)
Definition twin_rows : list (review R) :=
  [ {| Id := 1; ProductId := "B000"; Score := 5; content := "first";
       embedding := [1; 0]%R |};
    {| Id := 2; ProductId := "B000"; Score := 5; content := "second";
       embedding := [1; 0]%R |} ].

Definition index_of (rs : list (review R)) : heap R :=
  [ DataFrame rs;
    NdArray2 2 (map normalize_row (map (@embedding R) rs)) ].

Definition answers (v : list R) (_ : string) : list R := v.

Definition search (rs : list (review R)) (v : list R) (top_k : Z)
           (score_filter : option Z)
  : (pyexn + list (hit R)) * heap R :=
  semantic_search (H0 := stable_argsort) (answers v) "query" 0 1
                  top_k score_filter (index_of rs).

Lemma built_ok : built_index built 0 1 rows 2.
Proof.
  split; [reflexivity|]. split; [reflexivity|]. repeat constructor.
Defined.

End ExactDemo.




(* ------------------------------------------------------------------ *)
(** ** Query: a record against itself *)

(** With [top_k = 1] the row returned is one of greatest score. *)
Lemma top_indices_one {F} `{Argsort F} (s : list F) :
  s <> [] ->
  exists j, top_indices s 1 = [j] /\ j < length s /\
            forall m, m < length s -> ascending s m j.
Proof.
  intros NE.
  pose proof (StronglySorted_rev (argsort_sorted s)) as SS.
  pose proof (@rev_argsort_bound _ _ _ s) as Bd.
  assert (In_rev : forall m, m < length s -> In m (rev (argsort s))).
  { intros m Hm. apply in_rev. rewrite rev_involutive.
    apply (Permutation_in _ (Permutation_sym (argsort_perm s))).
    apply in_seq. lia. }
  unfold top_indices, py_slice_to. cbn [Z.leb Z.compare Z.to_nat Pos.to_nat
                                        Pos.iter_op Nat.add].
  destruct (rev (argsort s)) as [|j rest].
  - destruct s as [|x s]; [congruence|]. destruct (In_rev 0); cbn; lia.
  - exists j. split; [reflexivity|]. split; [apply Bd; now left|].
    intros m Hm. destruct (In_rev m Hm) as [<-|I].
    + apply f_leb_refl.
    + apply StronglySorted_inv in SS. destruct SS as [_ Fa].
      rewrite Forall_forall in Fa. exact (Fa m I).
Qed.

Section SelfSimilarity.
Open Scope R_scope.

(** The score of a vector of norm [n] against itself is
    [n^2 / (n + 1e-10)^2]. *)
Lemma self_score (v : list R) :
  dot (normalize_row v) (normalize_row v)
  = l2_norm v * l2_norm v / (denominator v * denominator v).
Proof. now rewrite normalized_dot, l2_norm_sqr. Qed.

Lemma self_score_near_one (v : list R) :
  2 / 100000 <= l2_norm v ->
  1 - 1 / 100000 <= dot (normalize_row v) (normalize_row v).
Proof.
  intros Hn. rewrite self_score.
  unfold denominator. cbn [f_add f_eps real_scalar].
  set (n := l2_norm v) in *.
  assert (He : 10000000000 * Exact.eps = 1)
    by (unfold Exact.eps; field).
  set (e := Exact.eps) in *.
  assert (0 < e) by nra.
  assert (Pc : 0 < (n + e) * (n + e)) by nra.
  apply Rmult_le_reg_r with ((n + e) * (n + e)); [exact Pc|].
  unfold Rdiv at 2. rewrite Rmult_assoc, Rinv_l, Rmult_1_r by lra.
  assert (2 * e <= 1 / 100000 * n) by nra.
  assert (2 * e * (n + e) <= 1 / 100000 * n * (n + e)) by nra.
  nra.
Qed.

Lemma key_at_raw_scores (rows : list (review R)) (q : list R) i r :
  nth_error rows i = Some r ->
  key_at (raw_scores (map normalize_row (map (@embedding R) rows)) q) i
  = dot (normalize_row (embedding r)) (normalize_row q).
Proof.
  intros E. unfold key_at, raw_scores.
  apply nth_error_nth. rewrite !nth_error_map, E. reflexivity.
Qed.

End SelfSimilarity.



Lemma stable_top_one_of_tie {F} `{Scalar F} (x : F) :
  top_indices (H0 := stable_argsort) [x; x] 1 = [1].
Proof.
  unfold top_indices, py_slice_to. cbn [argsort stable_argsort].
  unfold insertion_argsort. cbn [length seq fold_left insert key_at nth].
  rewrite f_leb_refl. reflexivity.
Qed.


(* ------------------------------------------------------------------ *)
(** ** Further properties of a query *)

Section QueryFacts.
Context {F : Type} `{Argsort F}.
Variable embeddings_create : string -> list F.

(** The scores the ranking of a query sees. *)
Definition search_scores (rows : list (review F)) (score_filter : option Z)
           (query_vec : list F) : list F :=
  masked rows score_filter
         (raw_scores (map normalize_row (map (@embedding F) rows)) query_vec).

Lemma map_Some_inj {A} (l l' : list A) : map Some l = map Some l' -> l = l'.
Proof.
  revert l'. induction l as [|a l IH]; intros [|b l']; cbn;
    try discriminate; [reflexivity|].
  intros [= -> E]. f_equal. now apply IH.
Qed.

Lemma length_search_scores rows sf qv :
  length (search_scores rows sf qv) = length rows.
Proof.
  unfold search_scores.
  rewrite length_masked; rewrite length_raw_scores, !length_map; reflexivity.
Qed.

(** A query of the right dimension against a built index. *)
Lemma semantic_search_built query df nm top_k score_filter (h : heap F)
      rows d :
  built_index h df nm rows d ->
  length (embeddings_create query) = d ->
  let s := search_scores rows score_filter (embeddings_create query) in
  exists hits,
    semantic_search embeddings_create query df nm top_k score_filter h =
      (inr hits,
       h ++ [NdArray1 (embeddings_create query);
             NdArray1 (normalize_row (embeddings_create query));
             NdArray1 s]) /\
    map Some hits = map (hit_at rows s) (top_indices s top_k).
Proof.
  intros (Ef & Em & _) D s.
  destruct (@semantic_search_run _ _ _ embeddings_create query df nm top_k
              score_filter h rows d _ Ef Em D) as (hits & E & Hh);
    [now rewrite !length_map|].
  exists hits. split; [exact E|exact Hh].
Qed.

Lemma built_index_app (h t : heap F) df nm rows d :
  built_index h df nm rows d -> built_index (h ++ t) df nm rows d.
Proof.
  intros (Ef & Em & Fd). repeat split; try assumption;
    apply nth_error_keep; assumption.
Qed.

Lemma StronglySorted_app_cross {A} (R : A -> A -> Prop) (l1 l2 : list A) :
  StronglySorted R (l1 ++ l2) ->
  forall a b, In a l1 -> In b l2 -> R a b.
Proof.
  induction l1 as [|x l1 IH]; cbn; intros SS a b Ia Ib; [tauto|].
  apply StronglySorted_inv in SS. destruct SS as [SS Fx].
  destruct Ia as [<-|Ia].
  - rewrite Forall_forall in Fx. apply Fx, in_or_app. now right.
  - now apply IH.
Qed.

Lemma py_slice_to_firstn {A} (l : list A) k :
  exists m, py_slice_to l k = firstn m l.
Proof. unfold py_slice_to. destruct (0 <=? k)%Z; eexists; reflexivity. Qed.

Lemma rev_argsort_perm (s : list F) :
  Permutation (rev (argsort s)) (seq 0 (length s)).
Proof.
  rewrite <- (argsort_perm s). symmetry. apply Permutation_rev.
Qed.

Lemma top_indices_NoDup (s : list F) k : NoDup (top_indices s k).
Proof.
  unfold top_indices. destruct (py_slice_to_firstn (rev (argsort s)) k)
    as [m ->].
  assert (N : NoDup (rev (argsort s))).
  { eapply Permutation_NoDup;
      [symmetry; apply rev_argsort_perm|apply seq_NoDup]. }
  rewrite <- (firstn_skipn m (rev (argsort s))) in N.
  now apply NoDup_app_remove_r in N.
Qed.

(** Whatever is left out of the result scores no higher than what is in. *)
Lemma top_indices_best (s : list F) k i j :
  In i (top_indices s k) -> j < length s -> ~ In j (top_indices s k) ->
  ascending s j i.
Proof.
  unfold top_indices. destruct (py_slice_to_firstn (rev (argsort s)) k)
    as [m ->].
  intros Ii Lj Nj.
  pose proof (StronglySorted_rev (argsort_sorted s)) as SS.
  rewrite <- (firstn_skipn m (rev (argsort s))) in SS.
  assert (Ij : In j (rev (argsort s))).
  { apply (Permutation_in _ (Permutation_sym (rev_argsort_perm s))).
    apply in_seq. lia. }
  rewrite <- (firstn_skipn m (rev (argsort s))) in Ij.
  apply in_app_or in Ij. destruct Ij as [Ij|Ij]; [tauto|].
  exact (StronglySorted_app_cross _ _ SS i j Ii Ij).
Qed.

Lemma top_indices_all (s : list F) k :
  (Z.of_nat (length s) <= k)%Z ->
  Permutation (top_indices s k) (seq 0 (length s)).
Proof.
  intros K. unfold top_indices, py_slice_to.
  destruct (Z.leb_spec 0 k); [|lia].
  rewrite firstn_all2; [apply rev_argsort_perm|].
  rewrite length_rev, (Permutation_length (argsort_perm s)), length_seq. lia.
Qed.

Lemma top_indices_length_neg (s : list F) k :
  (k < 0)%Z -> length (top_indices s k) = length s - Z.to_nat (- k).
Proof.
  intros K. unfold top_indices, py_slice_to.
  destruct (Z.leb_spec 0 k); [lia|].
  rewrite length_firstn, length_rev,
    (Permutation_length (argsort_perm s)), length_seq. lia.
Qed.

End QueryFacts.

Section QueryRows.
Context {F : Type} `{Argsort F}.
Variable embeddings_create : string -> list F.

(** The guarded cosine of a review's embedding with the query vector. *)
Definition cosine (r : review F) (query_vec : list F) : F :=
  dot (normalize_row (embedding r)) (normalize_row query_vec).

(** What the [similarity] column shows beside a review. *)
Definition shown_similarity (score_filter : option Z) (r : review F)
           (query_vec : list F) : F :=
  match score_filter with
  | Some wanted =>
      if (Score r =? wanted)%Z then cosine r query_vec else f_neg_one
  | None => cosine r query_vec
  end.

Lemma key_at_search_scores rows sf qv i (r : review F) :
  nth_error rows i = Some r ->
  key_at (search_scores rows sf qv) i = shown_similarity sf r qv.
Proof.
  intros Er. unfold key_at, search_scores.
  assert (E0 : nth_error (raw_scores (map normalize_row
                                          (map (@embedding F) rows)) qv) i
               = Some (cosine r qv)).
  { unfold raw_scores. now rewrite !nth_error_map, Er. }
  apply nth_error_nth. destruct sf as [w|]; cbn [masked shown_similarity];
    [|exact E0].
  rewrite nth_error_map.
  erewrite nth_error_combine;
    [|unfold filter_mask; rewrite nth_error_map, Er; reflexivity|exact E0].
  cbn. now destruct (Score r =? w)%Z.
Qed.

(** Row by row: each returned row is one review of the frame with what
    [shown_similarity] gives for it. *)
Lemma hits_described rows sf qv idx (hits : list (hit F)) :
  map Some hits = map (hit_at rows (search_scores rows sf qv)) idx ->
  Forall2 (fun i ht =>
             exists r, nth_error rows i = Some r /\
                       ht = {| hit_Score := Score r;
                               hit_similarity := shown_similarity sf r qv;
                               hit_content := content r |}) idx hits.
Proof.
  intros E. apply hits_rows in E.
  eapply Forall2_impl; [|exact E].
  intros i ht (r & Er & ->). exists r. split; [exact Er|].
  unfold to_hit. cbn [fst snd]. now erewrite key_at_search_scores by exact Er.
Qed.

Lemma Forall2_Forall_r {A B} (P : A -> B -> Prop) (Q : B -> Prop) l l' :
  Forall2 P l l' -> (forall a b, In a l -> P a b -> Q b) -> Forall Q l'.
Proof.
  induction 1 as [|a b l l' Hab _ IH]; intros HQ; constructor.
  - eapply HQ; [now left|exact Hab].
  - apply IH. intros a' b' I. apply HQ. now right.
Qed.

Lemma StronglySorted_impl_in {A} (R R' : A -> A -> Prop) (l : list A) :
  (forall a b, In a l -> In b l -> R a b -> R' a b) ->
  StronglySorted R l -> StronglySorted R' l.
Proof.
  intros HR SS. induction SS as [|a l Hl IH Ha]; constructor.
  - apply IH. intros x y Ix Iy. apply HR; now right.
  - rewrite Forall_forall in *. intros b Ib.
    apply HR; [now left|now right|now apply Ha].
Qed.

(** The reviews with the wanted number of stars, by index. *)
Definition matches (rows : list (review F)) (wanted : Z) (i : nat) : bool :=
  match nth_error rows i with
  | Some r => (Score r =? wanted)%Z
  | None => false
  end.

Lemma filter_indices_length {A} (p : A -> bool) (l : list A) :
  length (filter (fun i => match nth_error l i with
                           | Some a => p a
                           | None => false
                           end) (seq 0 (length l)))
  = length (filter p l).
Proof.
  induction l as [|a l IH] using rev_ind; [reflexivity|].
  rewrite length_app. cbn [length]. rewrite Nat.add_1_r, seq_S.
  rewrite !filter_app, !length_app. f_equal.
  - rewrite <- IH. f_equal. apply filter_ext_in. intros i Ii.
    apply in_seq in Ii. now rewrite nth_error_app1 by lia.
  - cbn [filter Nat.add]. rewrite nth_error_app2 by lia.
    rewrite Nat.sub_diag. cbn. now destruct (p a).
Qed.

Lemma Permutation_filter_length {A} (p : A -> bool) (l l' : list A) :
  Permutation l l' -> length (filter p l) = length (filter p l').
Proof.
  induction 1 as [|x l l' _ IH|x y l|l l' l'' _ IH1 _ IH2]; cbn.
  - reflexivity.
  - destruct (p x); cbn; now rewrite IH.
  - destruct (p x), (p y); reflexivity.
  - now rewrite IH1.
Qed.

(** Where no unmarked element stands before a marked one, a prefix no
    longer than the number of marked elements is all marked. *)
Lemma firstn_all_marked {A} (m : A -> bool) (l : list A) n :
  StronglySorted (fun a b => m b = true -> m a = true) l ->
  n <= length (filter m l) ->
  Forall (fun a => m a = true) (firstn n l).
Proof.
  intros SS. revert n. induction SS as [|a l Hl IH Ha]; intros n Hn.
  - rewrite firstn_nil. constructor.
  - destruct n as [|n]; [constructor|]. cbn [firstn filter] in *.
    destruct (m a) eqn:Ma.
    + constructor; [exact Ma|]. apply IH. cbn in Hn. lia.
    + exfalso. assert (Z : filter m l = []).
      { destruct (filter m l) as [|b t] eqn:Eb; [reflexivity|].
        assert (Ib : In b (filter m l)) by (rewrite Eb; now left).
        apply filter_In in Ib. destruct Ib as [Ib Mb].
        rewrite Forall_forall in Ha. specialize (Ha b Ib Mb). congruence. }
      rewrite Z in Hn. cbn in Hn. lia.
Qed.

End QueryRows.

Section QueryResults.
Context {F : Type} `{Argsort F}.
Variable embeddings_create : string -> list F.

(** The row of the result frame that stands for review [r]. *)
Definition shown_row (score_filter : option Z) (query_vec : list F)
           (r : review F) : hit F :=
  {| hit_Score := Score r;
     hit_similarity := shown_similarity score_filter r query_vec;
     hit_content := content r |}.

Lemma search_scores_map rows sf (qv : list F) :
  search_scores rows sf qv = map (fun r => shown_similarity sf r qv) rows.
Proof.
  unfold search_scores, raw_scores, filter_mask, shown_similarity, cosine.
  destruct sf as [w|]; cbn [masked].
  - induction rows as [|r rows IH]; cbn; [reflexivity|].
    f_equal; [now destruct (Score r =? w)%Z|exact IH].
  - now rewrite !map_map.
Qed.

Lemma to_hit_combine rows sf (qv : list F) :
  map to_hit (combine rows (search_scores rows sf qv))
  = map (shown_row sf qv) rows.
Proof.
  rewrite search_scores_map.
  induction rows as [|r rows IH]; cbn; [reflexivity|]. now rewrite IH.
Qed.

Lemma map_nth_error_seq {A} (l : list A) :
  map (nth_error l) (seq 0 (length l)) = map Some l.
Proof.
  induction l as [|a l IH] using rev_ind; [reflexivity|].
  rewrite length_app. cbn [length]. rewrite Nat.add_1_r, seq_S.
  rewrite !map_app, <- IH. cbn [map Nat.add]. f_equal.
  - apply map_ext_in. intros i Ii. apply in_seq in Ii.
    now rewrite nth_error_app1 by lia.
  - rewrite nth_error_app2 by lia. now rewrite Nat.sub_diag.
Qed.

Lemma hit_at_seq rows sf (qv : list F) :
  map (hit_at rows (search_scores rows sf qv)) (seq 0 (length rows))
  = map Some (map (shown_row sf qv) rows).
Proof.
  unfold hit_at. rewrite <- to_hit_combine.
  rewrite <- (map_map (nth_error _) (option_map to_hit)).
  replace (length rows)
    with (length (combine rows (search_scores rows sf qv)))
    by (rewrite length_combine, length_search_scores; lia).
  rewrite map_nth_error_seq, !map_map. reflexivity.
Qed.

Lemma hits_shown rows sf (qv : list F) idx hits :
  map Some hits = map (hit_at rows (search_scores rows sf qv)) idx ->
  Forall2 (fun i ht => exists r, nth_error rows i = Some r /\
                                 ht = shown_row sf qv r) idx hits.
Proof. intros E. now apply hits_described in E. Qed.

Lemma Forall2_In_r {A B} (P : A -> B -> Prop) l l' b :
  Forall2 P l l' -> In b l' -> exists a, In a l /\ P a b.
Proof.
  induction 1 as [|x y l l' Hxy _ IH]; cbn; [tauto|].
  intros [<-|I]; [exists x; auto|].
  destruct (IH I) as (a & Ia & Pa). exists a. auto.
Qed.

Lemma Forall2_In_l {A B} (P : A -> B -> Prop) l l' a :
  Forall2 P l l' -> In a l -> exists b, In b l' /\ P a b.
Proof.
  induction 1 as [|x y l l' Hxy _ IH]; cbn; [tauto|].
  intros [<-|I]; [exists y; auto|].
  destruct (IH I) as (b & Ib & Pb). exists b. auto.
Qed.

End QueryResults.

(** X1. A successful query only reads the index: it allocates three arrays
    (query, normalized query, scores) and leaves every object of the heap
    as it was, the frame and the normalized matrix among them; the mask is
    written into the new score array alone. *)
Theorem semantic_search_reads_only
        {F} `{Argsort F} (embeddings_create : string -> list F)
        query df nm top_k score_filter (h : heap F) rows d :
  built_index h df nm rows d ->
  length (embeddings_create query) = d ->
  exists hits h',
    semantic_search embeddings_create query df nm top_k score_filter h
      = (inr hits, h') /\
    preserves h h' /\
    built_index h' df nm rows d /\
    length h' = length h + 3.
Proof.
  intros B D.
  destruct (semantic_search_built embeddings_create query top_k score_filter
              B D) as (hits & E & _).
  exists hits. eexists. split; [exact E|].
  split; [apply preserves_app|]. split; [now apply built_index_app|].
  rewrite length_app. reflexivity.
Qed.

Lemma semantic_search_reads_only_witness :
  let h := Demo.built Demo.abc in
  built_index h 0 4 (csv_rows Demo.abc) 2 /\
  length (Demo.answers Demo.vec_A "query") = 2 /\
  exists hits h',
    Demo.search Demo.abc Demo.vec_A 5 (Some 5%Z) = (inr hits, h') /\
    preserves h h' /\
    built_index h' 0 4 (csv_rows Demo.abc) 2 /\
    length h' = length h + 3.
Proof.
  intros h. split; [exact demo_built|]. split; [reflexivity|].
  exact (@semantic_search_reads_only
           _ _ stable_argsort (Demo.answers Demo.vec_A) "query" 0 4 5
           (Some 5%Z) h _ 2 demo_built eq_refl).
Defined.

(** X2. A query can be repeated: run again on the heap the first run left,
    the same query returns the same rows with the same scores. *)
Theorem semantic_search_repeatable
        {F} `{Argsort F} (embeddings_create : string -> list F)
        query df nm top_k score_filter (h : heap F) rows d :
  built_index h df nm rows d ->
  length (embeddings_create query) = d ->
  exists hits h1 h2,
    semantic_search embeddings_create query df nm top_k score_filter h
      = (inr hits, h1) /\
    semantic_search embeddings_create query df nm top_k score_filter h1
      = (inr hits, h2).
Proof.
  intros B D.
  destruct (semantic_search_built embeddings_create query top_k score_filter
              B D) as (hits & E & Hh).
  destruct (semantic_search_built
              embeddings_create query top_k score_filter
              (built_index_app
                 [NdArray1 (embeddings_create query);
                  NdArray1 (normalize_row (embeddings_create query));
                  NdArray1 (search_scores rows score_filter
                                          (embeddings_create query))] B) D)
    as (hits' & E' & Hh').
  rewrite <- Hh in Hh'. apply map_Some_inj in Hh'. subst hits'.
  exists hits. do 2 eexists. split; [exact E|exact E'].
Qed.

Lemma semantic_search_repeatable_witness :
  built_index (Demo.built Demo.abc) 0 4 (csv_rows Demo.abc) 2 /\
  length (Demo.answers Demo.vec_A "query") = 2 /\
  exists hits h1 h2,
    Demo.search Demo.abc Demo.vec_A 2 None = (inr hits, h1) /\
    semantic_search (H0 := stable_argsort) (Demo.answers Demo.vec_A)
                    "query" 0 4 2 None h1 = (inr hits, h2).
Proof.
  split; [exact demo_built|]. split; [reflexivity|].
  exact (@semantic_search_repeatable
           _ _ stable_argsort (Demo.answers Demo.vec_A) "query" 0 4 2
           None _ _ 2 demo_built eq_refl).
Defined.

(** X3. Every returned row is one review of the frame, with that review's
    [Score] and [content]; its [similarity] is the guarded cosine of that
    review's own embedding with the query, or [-1.0] when a filter is given
    and the review's [Score] differs from it. The rows come from pairwise
    distinct positions of the frame. *)
Theorem returned_rows_described
        {F} `{Argsort F} (embeddings_create : string -> list F)
        query df nm top_k score_filter (h : heap F) rows d :
  built_index h df nm rows d ->
  length (embeddings_create query) = d ->
  exists hits h' idx,
    semantic_search embeddings_create query df nm top_k score_filter h
      = (inr hits, h') /\
    NoDup idx /\
    Forall2 (fun i ht =>
               exists r, nth_error rows i = Some r /\
                         ht = shown_row score_filter
                                        (embeddings_create query) r)
            idx hits.
Proof.
  intros B D.
  destruct (semantic_search_built embeddings_create query top_k score_filter
              B D) as (hits & E & Hh).
  exists hits. eexists.
  exists (top_indices (search_scores rows score_filter
                                     (embeddings_create query)) top_k).
  split; [exact E|].
  split; [apply top_indices_NoDup|]. now apply hits_shown.
Qed.

Lemma returned_rows_described_witness :
  built_index (Demo.built Demo.abc) 0 4 (csv_rows Demo.abc) 2 /\
  length (Demo.answers Demo.vec_A "query") = 2 /\
  exists hits h' idx,
    Demo.search Demo.abc Demo.vec_A 2 (Some 5%Z) = (inr hits, h') /\
    NoDup idx /\
    Forall2 (fun i ht =>
               exists r, nth_error (csv_rows Demo.abc) i = Some r /\
                         ht = shown_row (Some 5%Z) Demo.vec_A r)
            idx hits.
Proof.
  split; [exact demo_built|]. split; [reflexivity|].
  exact (@returned_rows_described
           _ _ stable_argsort (Demo.answers Demo.vec_A) "query" 0 4 2
           (Some 5%Z) _ _ 2 demo_built eq_refl).
Defined.

(** X4. Whatever is left out scores no higher than what is returned: for a
    returned row and a review of the frame that is not among the returned
    rows, the review's shown similarity is at most the row's. *)
Theorem returned_rows_score_highest
        {F} `{Argsort F} (embeddings_create : string -> list F)
        query df nm top_k score_filter (h : heap F) rows d :
  built_index h df nm rows d ->
  length (embeddings_create query) = d ->
  exists hits h',
    semantic_search embeddings_create query df nm top_k score_filter h
      = (inr hits, h') /\
    forall ht r,
      In ht hits -> In r rows ->
      ~ In (shown_row score_filter (embeddings_create query) r) hits ->
      f_leb (shown_similarity score_filter r (embeddings_create query))
            (hit_similarity ht) = true.
Proof.
  intros B D.
  destruct (semantic_search_built embeddings_create query top_k score_filter
              B D) as (hits & E & Hh).
  exists hits. eexists. split; [exact E|].
  apply hits_shown in Hh. intros ht r Iht Ir Nr.
  set (qv := embeddings_create query) in *.
  set (s := search_scores rows score_filter qv) in *.
  destruct (Forall2_In_r _ Hh Iht) as (i & Ii & ri & Eri & ->).
  apply In_nth_error in Ir. destruct Ir as [j Ej].
  assert (Lj : j < length s).
  { unfold s. rewrite length_search_scores. apply nth_error_Some. congruence. }
  assert (Nj : ~ In j (top_indices s top_k)).
  { intros Ij. destruct (Forall2_In_l _ Hh Ij) as (b & Ib & r' & Er' & ->).
    rewrite Ej in Er'. injection Er' as <-. exact (Nr Ib). }
  pose proof (@top_indices_best _ _ _ s top_k i j Ii Lj Nj) as Best.
  unfold ascending, s in Best.
  erewrite !key_at_search_scores in Best by eassumption.
  exact Best.
Qed.

Lemma returned_rows_score_highest_witness :
  built_index (Demo.built Demo.abc) 0 4 (csv_rows Demo.abc) 2 /\
  length (Demo.answers Demo.vec_A "query") = 2 /\
  exists hits h',
    Demo.search Demo.abc Demo.vec_A 2 None = (inr hits, h') /\
    forall ht r,
      In ht hits -> In r (csv_rows Demo.abc) ->
      ~ In (shown_row None Demo.vec_A r) hits ->
      f_leb (shown_similarity None r Demo.vec_A) (hit_similarity ht) = true.
Proof.
  split; [exact demo_built|]. split; [reflexivity|].
  exact (@returned_rows_score_highest
           _ _ stable_argsort (Demo.answers Demo.vec_A) "query" 0 4 2
           None _ _ 2 demo_built eq_refl).
Defined.

(** X5. With [top_k] at least the number of reviews, every review of the
    frame is returned exactly once, filter or not: the result is a
    permutation of the frame's rows, each with its shown similarity. *)
Theorem large_top_k_returns_every_row
        {F} `{Argsort F} (embeddings_create : string -> list F)
        query df nm top_k score_filter (h : heap F) rows d :
  built_index h df nm rows d ->
  length (embeddings_create query) = d ->
  (Z.of_nat (length rows) <= top_k)%Z ->
  exists hits h',
    semantic_search embeddings_create query df nm top_k score_filter h
      = (inr hits, h') /\
    Permutation hits
                (map (shown_row score_filter (embeddings_create query)) rows).
Proof.
  intros B D K.
  destruct (semantic_search_built embeddings_create query top_k score_filter
              B D) as (hits & E & Hh).
  exists hits. eexists. split; [exact E|].
  set (qv := embeddings_create query) in *.
  set (s := search_scores rows score_filter qv) in *.
  assert (P : Permutation (top_indices s top_k) (seq 0 (length rows))).
  { replace (length rows) with (length s)
      by (unfold s; apply length_search_scores).
    apply top_indices_all. unfold s. now rewrite length_search_scores. }
  apply (Permutation_map (hit_at rows s)) in P.
  rewrite <- Hh in P. unfold s in P. rewrite hit_at_seq in P.
  apply Permutation_sym, Permutation_map_inv in P.
  destruct P as (l3 & E3 & P3).
  apply map_Some_inj in E3. subst l3. now symmetry.
Qed.

Lemma large_top_k_returns_every_row_witness :
  built_index (Demo.built Demo.abc) 0 4 (csv_rows Demo.abc) 2 /\
  length (Demo.answers Demo.vec_A "query") = 2 /\
  (Z.of_nat (length (csv_rows Demo.abc)) <= 5)%Z /\
  exists hits h',
    Demo.search Demo.abc Demo.vec_A 5 (Some 1%Z) = (inr hits, h') /\
    Permutation hits
                (map (shown_row (Some 1%Z) Demo.vec_A) (csv_rows Demo.abc)).
Proof.
  assert (K : (Z.of_nat (length (csv_rows Demo.abc)) <= 5)%Z)
    by (cbn; lia).
  split; [exact demo_built|]. split; [reflexivity|]. split; [exact K|].
  exact (@large_top_k_returns_every_row
           _ _ stable_argsort (Demo.answers Demo.vec_A) "query" 0 4 5
           (Some 1%Z) _ _ 2 demo_built eq_refl K).
Defined.

(** X6. A negative [top_k] is not refused: the slice [[:top_k]] drops that
    many rows from the low end of the ranking, so [N - |top_k|] rows come
    back (none when [|top_k| >= N]). *)
Theorem negative_top_k_drops_rows
        {F} `{Argsort F} (embeddings_create : string -> list F)
        query df nm top_k score_filter (h : heap F) rows d :
  built_index h df nm rows d ->
  length (embeddings_create query) = d ->
  (top_k < 0)%Z ->
  exists hits h',
    semantic_search embeddings_create query df nm top_k score_filter h
      = (inr hits, h') /\
    length hits = length rows - Z.to_nat (- top_k).
Proof.
  intros B D K.
  destruct (semantic_search_built embeddings_create query top_k score_filter
              B D) as (hits & E & Hh).
  exists hits. eexists. split; [exact E|].
  apply hits_length in Hh. rewrite Hh, top_indices_length_neg by exact K.
  now rewrite length_search_scores.
Qed.

Lemma negative_top_k_drops_rows_witness :
  built_index (Demo.built Demo.abc) 0 4 (csv_rows Demo.abc) 2 /\
  length (Demo.answers Demo.vec_A "query") = 2 /\
  (-1 < 0)%Z /\
  exists hits h',
    Demo.search Demo.abc Demo.vec_A (-1) None = (inr hits, h') /\
    length hits = length (csv_rows Demo.abc) - Z.to_nat (- -1).
Proof.
  assert (K : (-1 < 0)%Z) by lia.
  split; [exact demo_built|]. split; [reflexivity|]. split; [exact K|].
  exact (@negative_top_k_drops_rows
           _ _ stable_argsort (Demo.answers Demo.vec_A) "query" 0 4 (-1)
           None _ _ 2 demo_built eq_refl K).
Defined.

Lemma filter_length_bound {A} (p : A -> bool) (l : list A) :
  length (filter p l) <= length l.
Proof.
  induction l as [|a l IH]; cbn; [lia|]. destruct (p a); cbn; lia.
Qed.

(** With a filter, reviews that pass stand before reviews that fail in the
    descending order, provided every passing review scores above [-1.0]. *)
Lemma matching_rows_first {F} `{Argsort F} rows wanted (qv : list F) :
  (forall r, In r rows -> Score r = wanted ->
             f_leb (cosine r qv) f_neg_one = false) ->
  let s := search_scores rows (Some wanted) qv in
  StronglySorted (fun a b => matches rows wanted b = true ->
                             matches rows wanted a = true)
                 (rev (argsort s)).
Proof.
  intros Above s.
  eapply StronglySorted_impl_in;
    [|apply (StronglySorted_rev (argsort_sorted s))].
  intros a b Ia Ib Hab Mb. cbn beta in Hab.
  apply rev_argsort_bound in Ia.
  unfold s in Ia. rewrite length_search_scores in Ia.
  unfold matches in *.
  destruct (nth_error rows b) as [rb|] eqn:Eb; [|discriminate].
  destruct (nth_error rows a) as [ra|] eqn:Ea;
    [|apply nth_error_None in Ea; lia].
  destruct (Score ra =? wanted)%Z eqn:Ma; [reflexivity|exfalso].
  unfold ascending, s in Hab.
  erewrite !key_at_search_scores in Hab by eassumption.
  cbn [shown_similarity] in Hab. rewrite Mb, Ma in Hab.
  rewrite Above in Hab; [discriminate|eapply nth_error_In, Eb|].
  now apply Z.eqb_eq.
Qed.

(** X7. When the filter works. If at least [top_k] reviews have the wanted
    number of stars and each of them scores above [-1.0] against the query,
    a filtered query returns exactly [top_k] rows and every one of them has
    the wanted number of stars. *)
Theorem filter_respected_when_enough_match
        {F} `{Argsort F} (embeddings_create : string -> list F)
        query df nm top_k wanted (h : heap F) rows d :
  built_index h df nm rows d ->
  length (embeddings_create query) = d ->
  (0 <= top_k)%Z ->
  Z.to_nat top_k <= length (filter (fun r => (Score r =? wanted)%Z) rows) ->
  (forall r, In r rows -> Score r = wanted ->
             f_leb (cosine r (embeddings_create query)) f_neg_one = false) ->
  exists hits h',
    semantic_search embeddings_create query df nm top_k (Some wanted) h
      = (inr hits, h') /\
    length hits = Z.to_nat top_k /\
    Forall (fun ht => hit_Score ht = wanted) hits.
Proof.
  intros B D K Enough Above.
  destruct (semantic_search_built embeddings_create query top_k (Some wanted)
              B D) as (hits & E & Hh).
  exists hits. eexists. split; [exact E|].
  set (qv := embeddings_create query) in *.
  set (s := search_scores rows (Some wanted) qv) in *.
  pose proof (filter_length_bound (fun r => (Score r =? wanted)%Z) rows).
  split.
  - apply hits_length in Hh. rewrite Hh, top_indices_length by exact K.
    unfold s. rewrite length_search_scores. lia.
  - assert (M : Forall (fun i => matches rows wanted i = true)
                       (top_indices s top_k)).
    { unfold top_indices, py_slice_to.
      destruct (Z.leb_spec 0 top_k); [|lia].
      apply firstn_all_marked; [now apply matching_rows_first|].
      rewrite (Permutation_filter_length _ (rev_argsort_perm s)).
      unfold s. rewrite length_search_scores.
      unfold matches. now rewrite filter_indices_length. }
    apply hits_shown in Hh. rewrite Forall_forall in M.
    eapply Forall2_Forall_r; [exact Hh|].
    intros i ht Ii (r & Er & ->). cbn [shown_row hit_Score].
    specialize (M i Ii). unfold matches in M. rewrite Er in M.
    now apply Z.eqb_eq.
Qed.

Lemma filter_respected_when_enough_match_witness :
  built_index (Demo.built Demo.abc) 0 4 (csv_rows Demo.abc) 2 /\
  length (Demo.answers Demo.vec_A "query") = 2 /\
  (0 <= 2)%Z /\
  Z.to_nat 2 <= length (filter (fun r => (Score r =? 5)%Z)
                               (csv_rows Demo.abc)) /\
  (forall r, In r (csv_rows Demo.abc) -> Score r = 5%Z ->
             f_leb (cosine r (Demo.answers Demo.vec_A "query")) f_neg_one
             = false) /\
  exists hits h',
    Demo.search Demo.abc Demo.vec_A 2 (Some 5%Z) = (inr hits, h') /\
    length hits = Z.to_nat 2 /\
    Forall (fun ht => hit_Score ht = 5%Z) hits.
Proof.
  assert (K : (0 <= 2)%Z) by lia.
  assert (Enough : Z.to_nat 2 <= length (filter (fun r => (Score r =? 5)%Z)
                                                (csv_rows Demo.abc)))
    by (cbn; lia).
  assert (Above : forall r, In r (csv_rows Demo.abc) -> Score r = 5%Z ->
                    f_leb (cosine r (Demo.answers Demo.vec_A "query"))
                          f_neg_one = false).
  { intros r [<-|[<-|[<-|[]]]] E; try discriminate E;
      vm_compute; reflexivity. }
  split; [exact demo_built|]. split; [reflexivity|]. split; [exact K|].
  split; [exact Enough|]. split; [exact Above|].
  exact (@filter_respected_when_enough_match
           _ _ stable_argsort (Demo.answers Demo.vec_A) "query" 0 4 2 5
           _ _ 2 demo_built eq_refl K Enough Above).
Defined.

(** X8. A filter value that no review has does not empty the result: the
    query still returns [min(top_k, N)] rows, and every one of them shows
    the similarity [-1.0]. *)
Theorem unmatched_filter_returns_masked_rows
        {F} `{Argsort F} (embeddings_create : string -> list F)
        query df nm top_k wanted (h : heap F) rows d :
  built_index h df nm rows d ->
  length (embeddings_create query) = d ->
  (0 <= top_k)%Z ->
  (forall r, In r rows -> Score r <> wanted) ->
  exists hits h',
    semantic_search embeddings_create query df nm top_k (Some wanted) h
      = (inr hits, h') /\
    length hits = Nat.min (Z.to_nat top_k) (length rows) /\
    Forall (fun ht => hit_similarity ht = f_neg_one /\
                      hit_Score ht <> wanted) hits.
Proof.
  intros B D K None_has.
  destruct (semantic_search_built embeddings_create query top_k (Some wanted)
              B D) as (hits & E & Hh).
  exists hits. eexists. split; [exact E|]. split.
  - apply hits_length in Hh. rewrite Hh, top_indices_length by exact K.
    now rewrite length_search_scores.
  - apply hits_shown in Hh. eapply Forall2_Forall_r; [exact Hh|].
    intros i ht _ (r & Er & ->).
    apply nth_error_In, None_has in Er.
    cbn [shown_row hit_similarity hit_Score shown_similarity].
    split; [|exact Er]. destruct (Z.eqb_spec (Score r) wanted); tauto.
Qed.

Lemma unmatched_filter_returns_masked_rows_witness :
  built_index (Demo.built Demo.abc) 0 4 (csv_rows Demo.abc) 2 /\
  length (Demo.answers Demo.vec_A "query") = 2 /\
  (0 <= 5)%Z /\
  (forall r, In r (csv_rows Demo.abc) -> Score r <> 9%Z) /\
  exists hits h',
    Demo.search Demo.abc Demo.vec_A 5 (Some 9%Z) = (inr hits, h') /\
    length hits = Nat.min (Z.to_nat 5) (length (csv_rows Demo.abc)) /\
    Forall (fun ht => hit_similarity ht = f_neg_one /\
                      hit_Score ht <> 9%Z) hits.
Proof.
  assert (K : (0 <= 5)%Z) by lia.
  assert (N : forall r, In r (csv_rows Demo.abc) -> Score r <> 9%Z).
  { intros r [<-|[<-|[<-|[]]]]; cbn; discriminate. }
  split; [exact demo_built|]. split; [reflexivity|]. split; [exact K|].
  split; [exact N|].
  exact (@unmatched_filter_returns_masked_rows
           _ _ stable_argsort (Demo.answers Demo.vec_A) "query" 0 4 5 9
           _ _ 2 demo_built eq_refl K N).
Defined.

(* ------------------------------------------------------------------ *)
(** ** Further properties of loading and building *)

Lemma np_stack_consistent {F} (vectors : list (list F)) d :
  vectors <> [] -> Forall (fun v => length v = d) vectors ->
  np_stack vectors = inr (d, vectors).
Proof.
  intros NE Fd. destruct vectors as [|v vs]; [congruence|].
  inversion Fd as [|? ? Ev Fvs]; subst. unfold np_stack.
  replace (forallb (fun w => length w =? length v) vs) with true;
    [reflexivity|].
  symmetry. apply forallb_forall. intros w Iw.
  rewrite Forall_forall in Fvs. apply Nat.eqb_eq. now apply Fvs.
Qed.

(** X9. On a table that has the [embedding] column and at least one row,
    all vectors of one length D, [load_data] returns two new objects: the
    frame with the table's rows, and an (N, D) matrix whose i-th row is the
    embedding of the i-th review; nothing else in the heap changes. *)
Theorem load_data_stacks_embeddings
        {F} `{Scalar F} (read_csv : string -> option (csv_table F))
        path table (h : heap F) d :
  read_csv path = Some table ->
  existsb (String.eqb "embedding") (csv_columns table) = true ->
  csv_rows table <> [] ->
  Forall (fun r => length (embedding r) = d) (csv_rows table) ->
  exists df embed_matrix h',
    load_data read_csv path h = (inr (df, embed_matrix), h') /\
    nth_error h df = None /\ nth_error h embed_matrix = None /\
    nth_error h' df = Some (DataFrame (csv_rows table)) /\
    nth_error h' embed_matrix =
      Some (NdArray2 d (map (@embedding F) (csv_rows table))) /\
    preserves h h'.
Proof.
  intros E C NE Fd.
  assert (S : np_stack (map (@embedding F) (csv_rows table))
              = inr (d, map (@embedding F) (csv_rows table))).
  { apply np_stack_consistent.
    - destruct (csv_rows table); [congruence|discriminate].
    - now apply Forall_map. }
  do 3 eexists. erewrite load_data_run by exact E. rewrite C, S. cbn [negb].
  split; [reflexivity|].
  split; [apply nth_error_None; lia|].
  split; [apply nth_error_None; lia|].
  rewrite <- app_assoc. cbn [app].
  split; [apply nth_error_alloc|]. split; [apply nth_error_alloc1|].
  apply preserves_app.
Qed.

Lemma load_data_stacks_embeddings_witness :
  Demo.on_disk Demo.abc INPUT_PATH = Some Demo.abc /\
  existsb (String.eqb "embedding") (csv_columns Demo.abc) = true /\
  csv_rows Demo.abc <> [] /\
  Forall (fun r => length (embedding r) = 2) (csv_rows Demo.abc) /\
  exists df embed_matrix h',
    load_data (Demo.on_disk Demo.abc) INPUT_PATH [] =
      (inr (df, embed_matrix), h') /\
    nth_error (@nil (pyobj Binary32.t)) df = None /\
    nth_error (@nil (pyobj Binary32.t)) embed_matrix = None /\
    nth_error h' df = Some (DataFrame (csv_rows Demo.abc)) /\
    nth_error h' embed_matrix =
      Some (NdArray2 2 (map (@embedding _) (csv_rows Demo.abc))) /\
    preserves [] h'.
Proof.
  assert (NE : csv_rows Demo.abc <> []) by discriminate.
  assert (Fd : Forall (fun r => length (embedding r) = 2)
                      (csv_rows Demo.abc)) by (repeat constructor).
  split; [reflexivity|]. split; [reflexivity|]. split; [exact NE|].
  split; [exact Fd|].
  exact (@load_data_stacks_embeddings
           _ _ (Demo.on_disk Demo.abc) INPUT_PATH Demo.abc [] 2
           eq_refl eq_refl NE Fd).
Defined.

(** X10. A table without rows cannot be loaded: [load_data] raises
    [ValueError] (from [np.stack] on an empty list, or from the column
    check), although an empty collection is a valid state of the data. *)
Theorem load_data_empty_table_raises
        {F} `{Scalar F} (read_csv : string -> option (csv_table F))
        path table (h : heap F) :
  read_csv path = Some table ->
  csv_rows table = [] ->
  exists h',
    load_data read_csv path h = (inl ValueError, h') /\ preserves h h'.
Proof.
  intros E Z. eexists. erewrite load_data_run by exact E.
  rewrite Z. cbn [map np_stack].
  split; [destruct (negb _); reflexivity|apply preserves_app].
Qed.

Lemma load_data_empty_table_raises_witness :
  let empty := {| csv_columns := Demo.columns; csv_rows := [] |} in
  Demo.on_disk empty INPUT_PATH = Some empty /\
  csv_rows empty = [] /\
  exists h',
    load_data (Demo.on_disk empty) INPUT_PATH [] = (inl ValueError, h') /\
    preserves [] h'.
Proof.
  intros empty. split; [reflexivity|]. split; [reflexivity|].
  exact (@load_data_empty_table_raises
           _ _ (Demo.on_disk empty) INPUT_PATH empty [] eq_refl eq_refl).
Defined.

(** X11. A table without an [embedding] column makes [load_data] raise
    [ValueError] before any vector is stacked, whatever its rows hold. *)
Theorem load_data_missing_column_raises
        {F} `{Scalar F} (read_csv : string -> option (csv_table F))
        path table (h : heap F) :
  read_csv path = Some table ->
  ~ In "embedding"%string (csv_columns table) ->
  load_data read_csv path h
    = (inl ValueError, h ++ [DataFrame (csv_rows table)]).
Proof.
  intros E N. erewrite load_data_run by exact E.
  destruct (existsb _ _) eqn:X; [|reflexivity].
  apply existsb_exists in X. destruct X as (c & Ic & Ec).
  apply String.eqb_eq in Ec. subst c. tauto.
Qed.

Lemma load_data_missing_column_raises_witness :
  let bare := {| csv_columns := ["Id"; "Score"; "content"]%string;
                 csv_rows := csv_rows Demo.abc |} in
  Demo.on_disk bare INPUT_PATH = Some bare /\
  ~ In "embedding"%string (csv_columns bare) /\
  load_data (Demo.on_disk bare) INPUT_PATH []
    = (inl ValueError, [] ++ [DataFrame (csv_rows bare)]).
Proof.
  intros bare.
  assert (N : ~ In "embedding"%string (csv_columns bare)).
  { cbn. intros [X|[X|[X|[]]]]; discriminate X. }
  split; [reflexivity|]. split; [exact N|].
  exact (@load_data_missing_column_raises
           _ _ (Demo.on_disk bare) INPUT_PATH bare [] eq_refl N).
Defined.



(* ------------------------------------------------------------------ *)
(** ** The length of normalized rows, in exact arithmetic *)

Section NormalizedNorm.
Open Scope R_scope.

Lemma l2_norm_normalize_row (x : list R) :
  l2_norm (normalize_row x) = l2_norm x / denominator x.
Proof.
  pose proof (denominator_pos x) as Pc.
  pose proof (l2_norm_nonneg x) as Pn.
  unfold l2_norm at 1. rewrite dot_rdot. unfold normalize_row.
  rewrite rdot_scale by lra. rewrite <- l2_norm_sqr.
  cbn [f_sqrt real_scalar].
  replace (l2_norm x * l2_norm x / (denominator x * denominator x))
    with (l2_norm x / denominator x * (l2_norm x / denominator x))
    by (field; lra).
  apply sqrt_square. apply Rmult_le_pos; [exact Pn|].
  left. now apply Rinv_0_lt_compat.
Qed.

Lemma normalized_norm_bounds (x : list R) :
  0 <= l2_norm (normalize_row x) < 1 /\
  (1 / 100000 <= l2_norm x -> 1 - 1 / 100000 <= l2_norm (normalize_row x)).
Proof.
  rewrite l2_norm_normalize_row.
  pose proof (l2_norm_nonneg x) as Pn.
  unfold denominator. cbn [f_add f_eps real_scalar].
  set (n := l2_norm x) in *.
  assert (He : 10000000000 * Exact.eps = 1) by (unfold Exact.eps; field).
  set (e := Exact.eps) in *.
  assert (Pe : 0 < e) by nra.
  assert (Pc : 0 < n + e) by lra.
  assert (Q : n / (n + e) * (n + e) = n) by (field; lra).
  set (q := n / (n + e)) in *.
  repeat split.
  - unfold q. apply Rmult_le_pos; [exact Pn|].
    left. now apply Rinv_0_lt_compat.
  - apply Rmult_lt_reg_r with (n + e); [exact Pc|]. rewrite Q. lra.
  - intros Hn. apply Rmult_le_reg_r with (n + e); [exact Pc|]. rewrite Q.
    nra.
Qed.

Lemma Forall2_map_r {A B} (P : A -> B -> Prop) (f : A -> B) (l : list A) :
  (forall a, P a (f a)) -> Forall2 P l (map f l).
Proof. intros HP. induction l; cbn; constructor; auto. Qed.

End NormalizedNorm.



(* ------------------------------------------------------------------ *)
(** ** [main]: the preset queries *)

Definition DEMO_QUERIES : list string :=
  [ "great chocolate taste but too sweet";
    "my dog loves this food";
    "terrible product waste of money";
    "best coffee I ever tried, amazing aroma" ]%string.

Section DemoMode.
Context {F : Type} `{Argsort F}.
Variable embeddings_create : string -> list F.

(** The loop [for query in queries: results = semantic_search(query, df,
    norm_matrix, top_k=DEFAULT_TOP_K); print_results(query, results)];
    what is printed is kept as the pairs handed to [print_results]. *)
Fixpoint search_each (queries : list string) (df norm_matrix : loc)
  : M F (list (string * list (hit F))) :=
  match queries with
  | [] => ret []
  | query :: rest =>
      results <- semantic_search embeddings_create query df norm_matrix
                                 DEFAULT_TOP_K None ;;
      shown <- search_each rest df norm_matrix ;;
      ret ((query, results) :: shown)
  end.

(** Mode 1 of [main]. *)
Definition demo_mode (df norm_matrix : loc)
  : M F (list (string * list (hit F))) :=
  search_each DEMO_QUERIES df norm_matrix.

Lemma search_each_run queries df nm (h : heap F) rows d :
  built_index h df nm rows d ->
  (forall q, In q queries -> length (embeddings_create q) = d) ->
  exists out h',
    search_each queries df nm h = (inr out, h') /\
    map fst out = queries /\
    Forall (fun p =>
              map Some (snd p) =
              map (hit_at rows (search_scores rows None
                                              (embeddings_create (fst p))))
                  (top_indices (search_scores rows None
                                              (embeddings_create (fst p)))
                               DEFAULT_TOP_K)) out /\
    preserves h h' /\
    length h' = length h + 3 * length queries.
Proof.
  revert h. induction queries as [|q queries IH]; intros h B D.
  - exists [], h. cbn. repeat split; auto using preserves_refl; lia.
  - destruct (semantic_search_built embeddings_create q DEFAULT_TOP_K None
                B (D q (or_introl eq_refl))) as (hits & E & Hh).
    set (h1 := h ++ _) in E.
    destruct (IH h1) as (out & h' & Eo & Fo & Ho & Po & Lo).
    { now apply built_index_app. }
    { intros q' I. apply D. now right. }
    exists ((q, hits) :: out), h'. cbn [search_each].
    erewrite bind_run by exact E. erewrite bind_run by exact Eo.
    split; [reflexivity|]. split; [cbn; now rewrite Fo|].
    split; [constructor; [exact Hh|exact Ho]|].
    split.
    + eapply preserves_trans; [apply preserves_app|exact Po].
    + rewrite Lo. unfold h1. rewrite length_app. cbn [length]. lia.
Qed.

End DemoMode.

(** X14. Mode 1 of [main]. On a built index of dimension D, with an
    embedding service that answers the four preset queries in dimension D,
    the demo loop succeeds; it hands [print_results] the four queries in
    their order, each with exactly the rows a single query on the fresh
    index returns (at most five); and it leaves every earlier object of the
    heap as it was, twelve arrays later. *)
Theorem demo_mode_runs_the_preset_queries
        {F} `{Argsort F} (embeddings_create : string -> list F)
        df nm (h : heap F) rows d :
  built_index h df nm rows d ->
  (forall q, In q DEMO_QUERIES -> length (embeddings_create q) = d) ->
  exists out h',
    demo_mode embeddings_create df nm h = (inr out, h') /\
    map fst out = DEMO_QUERIES /\
    Forall (fun p =>
              length (snd p) = Nat.min 5 (length rows) /\
              exists h1,
                semantic_search embeddings_create (fst p) df nm
                                DEFAULT_TOP_K None h = (inr (snd p), h1)) out /\
    preserves h h' /\
    built_index h' df nm rows d /\
    length h' = length h + 12.
Proof.
  intros B D.
  destruct (search_each_run embeddings_create DEMO_QUERIES B D)
    as (out & h' & Eo & Fo & Ho & Po & Lo).
  exists out, h'. split; [exact Eo|]. split; [exact Fo|].
  split; [|split; [exact Po|split; [|exact Lo]]].
  - assert (Iq : forall p, In p out -> In (fst p) DEMO_QUERIES).
    { intros p Ip. rewrite <- Fo. now apply in_map. }
    rewrite Forall_forall in *. intros p Ip. specialize (Ho p Ip).
    destruct (semantic_search_built embeddings_create (fst p) DEFAULT_TOP_K
                None B (D _ (Iq p Ip))) as (hits & E & Hh).
    rewrite <- Ho in Hh. apply map_Some_inj in Hh. subst hits.
    split; [|eexists; exact E].
    apply hits_length in Ho. rewrite Ho, top_indices_length
      by (unfold DEFAULT_TOP_K; lia).
    now rewrite length_search_scores.
  - destruct B as (Ef & Em & Fd). repeat split; auto.
Qed.

Lemma demo_mode_runs_the_preset_queries_witness :
  let h := Demo.built Demo.abc in
  built_index h 0 4 (csv_rows Demo.abc) 2 /\
  (forall q, In q DEMO_QUERIES ->
             length (Demo.answers Demo.vec_A q) = 2) /\
  exists out h',
    demo_mode (H0 := stable_argsort) (Demo.answers Demo.vec_A) 0 4 h
      = (inr out, h') /\
    map fst out = DEMO_QUERIES /\
    Forall (fun p =>
              length (snd p) = Nat.min 5 (length (csv_rows Demo.abc)) /\
              exists h1,
                semantic_search (H0 := stable_argsort)
                                (Demo.answers Demo.vec_A) (fst p) 0 4
                                DEFAULT_TOP_K None h = (inr (snd p), h1)) out /\
    preserves h h' /\
    built_index h' 0 4 (csv_rows Demo.abc) 2 /\
    length h' = length h + 12.
Proof.
  intros h.
  assert (D : forall q, In q DEMO_QUERIES ->
                        length (Demo.answers Demo.vec_A q) = 2)
    by (intros q _; reflexivity).
  split; [exact demo_built|]. split; [exact D|].
  exact (@demo_mode_runs_the_preset_queries
           _ _ stable_argsort (Demo.answers Demo.vec_A) 0 4 h _ 2
           demo_built D).
Defined.

(* ------------------------------------------------------------------ *)
(** ** A frame and a matrix of different lengths *)

Section FrameMismatch.
Context {F : Type} `{Argsort F}.
Variable embeddings_create : string -> list F.

Lemma setitem_mask_mismatch (h : heap F) (x : list F) mask v :
  length mask <> length x ->
  setitem_mask (length h) mask v (h ++ [NdArray1 x])
    = (inl IndexError, h ++ [NdArray1 x]).
Proof.
  intros N. unfold setitem_mask.
  erewrite bind_run by (apply load_vector_run, nth_error_alloc).
  cbv beta. destruct (Nat.eqb_spec (length mask) (length x)); [lia|].
  reflexivity.
Qed.

Lemma semantic_search_mask_mismatch query df nm top_k wanted (h : heap F)
      rows d rs :
  nth_error h df = Some (DataFrame rows) ->
  nth_error h nm = Some (NdArray2 d rs) ->
  length (embeddings_create query) = d ->
  length rows <> length rs ->
  semantic_search embeddings_create query df nm top_k (Some wanted) h =
    (inl IndexError,
     h ++ [NdArray1 (embeddings_create query);
           NdArray1 (normalize_row (embeddings_create query));
           NdArray1 (raw_scores rs (embeddings_create query))]).
Proof.
  intros Ef Em D N. unfold semantic_search.
  set (qv := embeddings_create query) in *.
  erewrite bind_run by apply alloc_run. cbv beta.
  erewrite bind_run by (apply load_vector_run, nth_error_alloc). cbv beta.
  erewrite bind_run by apply alloc_run. cbv beta.
  rewrite ?length_app, <- ?app_assoc; cbn [length app].
  fold (normalize_row qv).
  erewrite bind_run
    by (erewrite matmul_run;
        [|apply nth_error_keep, Em|apply nth_error_alloc1];
        rewrite length_normalize_row, D, Nat.eqb_refl; reflexivity).
  cbv beta. rewrite ?length_app, <- ?app_assoc; cbn [length app].
  fold (raw_scores rs qv).
  erewrite bind_fail; [reflexivity|].
  erewrite bind_run by (apply load_frame_run, nth_error_keep, Ef). cbv beta.
  change (h ++ [NdArray1 qv; NdArray1 (normalize_row qv);
                NdArray1 (raw_scores rs qv)])
    with (h ++ [NdArray1 qv; NdArray1 (normalize_row qv)]
            ++ [NdArray1 (raw_scores rs qv)]).
  rewrite app_assoc.
  replace (length h + 2)
    with (length (h ++ [NdArray1 qv; NdArray1 (normalize_row qv)]))
    by (rewrite length_app; reflexivity).
  apply setitem_mask_mismatch.
  unfold filter_mask. now rewrite length_map, length_raw_scores.
Qed.

End FrameMismatch.

(** X15. The frame and the matrix are passed separately and never compared:
    when they differ in length, a filtered query of the right dimension
    fails with numpy's [IndexError] at [scores[mask] = -1.0], after the
    scores were computed; the frame and the matrix are left as they were. *)
Theorem filtered_search_on_unequal_lengths_raises_IndexError
        {F} `{Argsort F} (embeddings_create : string -> list F)
        query df nm top_k wanted (h : heap F) rows d rs :
  nth_error h df = Some (DataFrame rows) ->
  nth_error h nm = Some (NdArray2 d rs) ->
  length (embeddings_create query) = d ->
  length rows <> length rs ->
  exists h',
    semantic_search embeddings_create query df nm top_k (Some wanted) h
      = (inl IndexError, h') /\
    preserves h h' /\
    nth_error h' df = Some (DataFrame rows) /\
    nth_error h' nm = Some (NdArray2 d rs).
Proof.
  intros Ef Em D N. eexists.
  split; [eapply semantic_search_mask_mismatch; eassumption|].
  split; [apply preserves_app|]. split; now apply nth_error_keep.
Qed.

Lemma filtered_search_on_unequal_lengths_raises_IndexError_witness :
  let rows := csv_rows Demo.abc in
  let rs := [Demo.vec_A; Demo.vec_C] in
  let h := [DataFrame rows; NdArray2 2 rs] in
  nth_error h 0 = Some (DataFrame rows) /\
  nth_error h 1 = Some (NdArray2 2 rs) /\
  length (Demo.answers Demo.vec_A "query") = 2 /\
  length rows <> length rs /\
  exists h',
    semantic_search (H0 := stable_argsort) (Demo.answers Demo.vec_A)
                    "query" 0 1 5 (Some 5%Z) h = (inl IndexError, h') /\
    preserves h h' /\
    nth_error h' 0 = Some (DataFrame rows) /\
    nth_error h' 1 = Some (NdArray2 2 rs).
Proof.
  intros rows rs h.
  assert (N : length rows <> length rs) by (cbn; discriminate).
  split; [reflexivity|]. split; [reflexivity|]. split; [reflexivity|].
  split; [exact N|].
  exact (@filtered_search_on_unequal_lengths_raises_IndexError
           _ _ stable_argsort (Demo.answers Demo.vec_A) "query" 0 1 5 5
           h rows 2 rs eq_refl eq_refl eq_refl N).
Defined.

(* ------------------------------------------------------------------ *)
(** ** [print_results]: the preview of a review *)

(** The most characters of a review that are printed. *)
Definition PREVIEW_CHARS : nat := 200.

(** [preview = row["content"][:PREVIEW_CHARS]], then [preview += "..."]
    when the content is longer. A [string] is read as the sequence of its
    characters. *)
Definition preview (content : string) : string :=
  let cut := substring 0 PREVIEW_CHARS content in
  if PREVIEW_CHARS <? String.length content then (cut ++ "...")%string
  else cut.

Lemma substring_whole (s : string) : substring 0 (String.length s) s = s.
Proof. induction s as [|c s IH]; cbn; [reflexivity|]. now rewrite IH. Qed.

Lemma append_empty_r (s : string) : (s ++ "")%string = s.
Proof. induction s as [|c s IH]; cbn; [reflexivity|]. now rewrite IH. Qed.

Lemma substring_split (n : nat) (s : string) :
  s = (substring 0 n s ++ substring n (String.length s - n) s)%string.
Proof.
  revert n. induction s as [|c s IH]; intros [|n]; cbn; try reflexivity.
  - now rewrite substring_whole.
  - f_equal. apply IH.
Qed.

Lemma length_substring_head (n : nat) (s : string) :
  String.length (substring 0 n s) = Nat.min n (String.length s).
Proof.
  revert n. induction s as [|c s IH]; intros [|n]; cbn; try reflexivity.
  now rewrite IH.
Qed.

Lemma length_substring_tail (n : nat) (s : string) :
  String.length (substring n (String.length s - n) s) = String.length s - n.
Proof.
  revert n. induction s as [|c s IH]; intros [|n]; cbn; try reflexivity.
  - now rewrite substring_whole.
  - apply IH.
Qed.


(* ------------------------------------------------------------------ *)
(** ** Zero vectors in binary32 *)

Module ZeroRows.

Definition is_zero (x : Binary32.t) : bool :=
  match x with S754_zero _ => true | _ => false end.

(** Neither NaN nor an infinity. *)
Definition is_finite (x : Binary32.t) : bool :=
  match x with S754_zero _ | S754_finite _ _ _ => true | _ => false end.

Lemma fold_zero_products (z q : list Binary32.t) :
  Forall (fun v => is_zero v = true) z ->
  Forall (fun v => is_finite v = true) q ->
  fold_left (fun acc (p : Binary32.t * Binary32.t) =>
               f_add acc (f_mul (fst p) (snd p)))
            (combine z q) Binary32.zero = Binary32.zero.
Proof.
  intros Hz. revert q. induction Hz as [|x z Hx _ IH]; intros q Hq;
    [reflexivity|].
  destruct q as [|y q]; [reflexivity|]. inversion Hq as [|? ? Hy Hq']; subst.
  cbn [combine fold_left fst snd].
  replace (f_add Binary32.zero (f_mul x y)) with Binary32.zero;
    [now apply IH|].
  destruct x as [sx|?| |? ? ?]; try discriminate Hx.
  destruct y as [sy|?| |sy my ey]; try discriminate Hy;
    destruct sx, sy; reflexivity.
Qed.

Lemma zero_is_finite (z : list Binary32.t) :
  Forall (fun v => is_zero v = true) z ->
  Forall (fun v => is_finite v = true) z.
Proof.
  apply Forall_impl. intros [s|?| |? ? ?]; cbn; congruence.
Qed.

Lemma normalize_zero_row (z : list Binary32.t) :
  Forall (fun v => is_zero v = true) z ->
  denominator z = Binary32.eps /\
  Forall (fun v => is_zero v = true) (normalize_row z).
Proof.
  intros Hz.
  assert (D : denominator z = Binary32.eps).
  { unfold denominator, l2_norm, dot.
    change (@f_zero Binary32.t binary32_scalar) with Binary32.zero.
    rewrite fold_zero_products; auto using zero_is_finite. }
  split; [exact D|]. unfold normalize_row, scale_row. rewrite D.
  apply Forall_map. eapply Forall_impl; [|exact Hz].
  intros v Hv. destruct v as [s|?| |? ? ?]; try discriminate Hv.
  change (f_div (S754_zero s) Binary32.eps)
    with (Binary32.div (S754_zero s) Binary32.eps).
  rewrite eps_binary32. now destruct s.
Qed.

End ZeroRows.

(** X17. In binary32 a review whose embedding holds only zeros is a valid
    row: its denominator is [float32(1e-10)], its normalized row is zero
    again, and against every query whose normalized vector has no NaN and
    no infinity it scores exactly 0.0. *)
Theorem binary32_zero_embedding_scores_zero
        (r : review Binary32.t) (query_vec : list Binary32.t) :
  Forall (fun v => ZeroRows.is_zero v = true) (embedding r) ->
  Forall (fun v => ZeroRows.is_finite v = true) (normalize_row query_vec) ->
  denominator (embedding r) = Binary32.eps /\
  cosine r query_vec = Binary32.zero /\
  shown_similarity None r query_vec = Binary32.zero.
Proof.
  intros Hz Hq.
  destruct (ZeroRows.normalize_zero_row Hz) as [D Z].
  split; [exact D|].
  assert (C : cosine r query_vec = Binary32.zero).
  { unfold cosine, dot.
    change (@f_zero Binary32.t binary32_scalar) with Binary32.zero.
    now apply ZeroRows.fold_zero_products. }
  split; exact C.
Qed.

Lemma binary32_zero_embedding_scores_zero_witness :
  let r := Demo.mk 1 3 "zero" [Demo.f32 0; Demo.f32 0] in
  Forall (fun v => ZeroRows.is_zero v = true) (embedding r) /\
  Forall (fun v => ZeroRows.is_finite v = true) (normalize_row Demo.vec_B) /\
  denominator (embedding r) = Binary32.eps /\
  cosine r Demo.vec_B = Binary32.zero /\
  shown_similarity None r Demo.vec_B = Binary32.zero.
Proof.
  intros r.
  assert (Hz : Forall (fun v => ZeroRows.is_zero v = true) (embedding r))
    by (repeat constructor).
  assert (Hq : Forall (fun v => ZeroRows.is_finite v = true)
                      (normalize_row Demo.vec_B))
    by (vm_compute; repeat constructor).
  split; [exact Hz|]. split; [exact Hq|].
  exact (@binary32_zero_embedding_scores_zero r Demo.vec_B Hz Hq).
Defined.
